(** * cfgparser: category index, typed values and list values

    A shallow embedding of [cfgparser.py] (class [CfgParser], an extended
    subclass of the standard library's [ConfigParser]) together with the
    properties of its category resolution, value evaluation and list
    splitting.

    Conventions of the embedding

    - a Python [str] is a [string]; [lower] and [strip] are the ASCII ones;
    - an [OrderedDict] is an association list in insertion order whose keys
      are pairwise distinct (assignment to a present key keeps its place);
    - a method is a function from the parser object to a result (a value or
      a raised exception) and the parser object after the call;
    - [ast.literal_eval] and the interpolation of the inherited
      [ConfigParser.get] are taken as they are: parameters of the model. *)

From Stdlib Require Import String Ascii List Bool Arith Lia ZArith.
Import ListNotations.
Local Open Scope string_scope.
Local Open Scope list_scope.

Set Warnings "-register-all".

(* ------------------------------------------------------------------------- *)
(** ** Python strings *)

Module PyStr.

Definition is_upper (c : ascii) : bool :=
  let n := nat_of_ascii c in ((65 <=? n) && (n <=? 90))%nat.

Definition lower_char (c : ascii) : ascii :=
  if is_upper c then ascii_of_nat (nat_of_ascii c + 32) else c.

(** [s.lower()] *)
Fixpoint lower (s : string) : string :=
  match s with
  | EmptyString => EmptyString
  | String c r => String (lower_char c) (lower r)
  end.

(** the characters [s.strip()] removes: tab, line feed, vertical tab, form
    feed, carriage return, the four separators 0x1c-0x1f and the blank *)
Definition is_space (c : ascii) : bool :=
  let n := nat_of_ascii c in
  (((9 <=? n) && (n <=? 13)) || ((28 <=? n) && (n <=? 32)))%nat.

Fixpoint lstrip (s : string) : string :=
  match s with
  | EmptyString => EmptyString
  | String c r => if is_space c then lstrip r else s
  end.

Fixpoint rstrip (s : string) : string :=
  match s with
  | EmptyString => EmptyString
  | String c r =>
      match rstrip r with
      | EmptyString => if is_space c then EmptyString else String c EmptyString
      | r' => String c r'
      end
  end.

(** [s.strip()] *)
Definition strip (s : string) : string := rstrip (lstrip s).

(** [s.count(c)] for a one-character [c] *)
Fixpoint count (c : ascii) (s : string) : nat :=
  match s with
  | EmptyString => 0
  | String d r => (if Ascii.eqb d c then 1 else 0) + count c r
  end.

(** Splitting at every character of a class: [s.split(c)] for a
    one-character separator and [re.compile("[...]").split(s)] for a
    character class.  The result is never empty; a delimiter at either end
    or two in a row give empty segments. *)
Fixpoint split_on (p : ascii -> bool) (s : string) : list string :=
  match s with
  | EmptyString => [EmptyString]
  | String c r =>
      if p c then EmptyString :: split_on p r
      else match split_on p r with
           | h :: t => String c h :: t
           | [] => [String c EmptyString]
           end
  end.

Definition split (c : ascii) (s : string) : list string :=
  split_on (fun d => Ascii.eqb d c) s.

(** truth value of a string: non empty *)
Definition truthy (s : string) : bool :=
  match s with EmptyString => false | _ => true end.

(** membership of a string in a set literal *)
Definition mem (s : string) (l : list string) : bool :=
  existsb (String.eqb s) l.

Definition nl : string := String (ascii_of_nat 10) EmptyString.

End PyStr.

(* ------------------------------------------------------------------------- *)
(** ** collections.OrderedDict with string keys *)

Module OrderedDict.

Definition t (V : Type) : Type := list (string * V).

Definition empty {V} : t V := [].

(** [d.get(k)]: [None] when the key is absent *)
Fixpoint get {V} (k : string) (d : t V) : option V :=
  match d with
  | [] => None
  | (k', v) :: r => if String.eqb k k' then Some v else get k r
  end.

(** [k in d] *)
Definition contains {V} (k : string) (d : t V) : bool :=
  match get k d with Some _ => true | None => false end.

(** [d[k] = v]: a present key keeps its position, a new key goes last *)
Fixpoint set {V} (k : string) (v : V) (d : t V) : t V :=
  match d with
  | [] => [(k, v)]
  | (k', v') :: r =>
      if String.eqb k k' then (k', v) :: r else (k', v') :: set k v r
  end.

(** [d.setdefault(k, v)]: the value now stored under [k], and the dict *)
Definition setdefault {V} (k : string) (v : V) (d : t V) : V * t V :=
  match get k d with
  | Some v' => (v', d)
  | None => (v, set k v d)
  end.

(** [d.keys()] *)
Definition keys {V} (d : t V) : list string := map fst d.

(** [d.update(e)] *)
Definition update {V} (d e : t V) : t V :=
  fold_left (fun acc kv => set (fst kv) (snd kv) acc) e d.

End OrderedDict.

Abbreviation odict := OrderedDict.t.

(* ------------------------------------------------------------------------- *)
(** ** Values and exceptions *)

(** The values a caller passes as [default] and the values
    [ast.literal_eval] builds.  [_EMPTY] is the module's private
    [object()]: it is equal to itself only. *)
Inductive PyVal : Type :=
| PNone
| PBool (b : bool)
| PInt (n : Z)
| PFloat (bits : Z)                    (* binary64 bit pattern *)
| PStr (s : string)
| PList (l : list PyVal)
| PTuple (l : list PyVal)
| PDict (l : list (PyVal * PyVal))
| _EMPTY.

(** [v != _EMPTY], which for these values is also [v is not _EMPTY] *)
Definition ne_EMPTY (v : PyVal) : bool :=
  match v with _EMPTY => false | _ => true end.

Inductive exn : Type :=
| NoSectionError (section : string)
| NoOptionError (opt section : string)
| KeyError (key : string)
| TypeError
| InterpolationError (opt section : string).

Inductive exn_class : Type :=
| NoSectionError_class | NoOptionError_class.

(** Calling an exception class.  [NoSectionError.__init__(self, section)]
    and [NoOptionError.__init__(self, option, section)] have required
    parameters; a call that does not supply them is a [TypeError]. *)
Definition instantiate (c : exn_class) (args : list string) : exn :=
  match c, args with
  | NoSectionError_class, [s] => NoSectionError s
  | NoOptionError_class, [o; s] => NoOptionError o s
  | _, _ => TypeError
  end.

(** [raise C] with a class [C]: the class is instantiated with no argument *)
Definition raise_class (c : exn_class) : exn := instantiate c [].

Inductive result (A : Type) : Type :=
| Ok (a : A)
| Raise (e : exn).
Arguments Ok {A} a.
Arguments Raise {A} e.

(* ------------------------------------------------------------------------- *)
(** ** The parser object *)

(** [_defaults] and [_sections] are the storage of the inherited
    [ConfigParser]; [_categories] is the attribute [CfgParser.__init__] adds,
    [None] until the index is built. *)
Record CfgParser : Type := mkCfgParser {
  _defaults : odict string;
  _sections : odict (odict string);
  _categories : option (odict (odict string))
}.

Definition set_categories (self : CfgParser) (c : odict (odict string))
  : CfgParser :=
  mkCfgParser (_defaults self) (_sections self) (Some c).

(** A method body: the outcome and the object after the call. *)
Definition M (A : Type) : Type := CfgParser -> result A * CfgParser.

Definition ret {A} (a : A) : M A := fun self => (Ok a, self).

Definition bind {A B} (c : M A) (k : A -> M B) : M B :=
  fun self =>
    match c self with
    | (Ok a, self') => k a self'
    | (Raise e, self') => (Raise e, self')
    end.

Definition lift {A} (f : CfgParser -> result A) : M A :=
  fun self => (f self, self).

Notation "x <- c ;; k" := (bind c (fun x => k))
  (at level 61, c at next level, right associativity).
Notation "c ;;; k" := (bind c (fun _ => k))
  (at level 61, right associativity).

(** [d[k]] *)
Definition getitem {V} (d : odict V) (k : string) : result V :=
  match OrderedDict.get k d with
  | Some v => Ok v
  | None => Raise (KeyError k)
  end.

(* ------------------------------------------------------------------------- *)
(** ** Example data *)

(** The configuration of [cfgparsertest.py] as the inherited reader stores
    it: section names as written between the brackets, option names in
    lower case, continuation lines joined by a line feed (the quoted words
    of val10, val12 and val13 are written here with single quotes). *)
Definition example_sections : odict (odict string) :=
  [ ("evalvals",
      [ ("val1", "42"); ("val2", "this is a string");
        ("val3", ("this is a string" ++ PyStr.nl ++ "across multiple lines")%string);
        ("val4", "True"); ("val5", "off"); ("val6", "true"); ("val7", "yes");
        ("val8", "no"); ("val9", "on"); ("val10", "[1, 5, 'hello']");
        ("val11", "4.2"); ("val12", "{1: 0, 5: 0, 'hello': 0}");
        ("val13", ("{1: 12, 5: 'hello'," ++ PyStr.nl ++ "'bye': ['a', 'b', 3]}")%string);
        ("val14", "None") ]);
    ("listvals",
      [ ("val1", "hello"); ("val2", "hello, there, comma, list");
        ("val3", ("this" ++ PyStr.nl ++ "list" ++ PyStr.nl ++ "uses"
                    ++ PyStr.nl ++ "newlines")%string);
        ("val4", ("now, lets, combine," ++ PyStr.nl ++ "the, two, together")%string);
        ("val5", "1, 2, 3, None, no, yes") ]);
    ("command: foo", [ ("dir", "bar") ]);
    (" Command:    bar ", [ ("dir", "baz") ]);
    ("CoMmaNd:baz", [ ("dir", "quux") ]);
    ("results: hello", [ ("type", "add") ]) ].

Definition example_cfg : CfgParser :=
  mkCfgParser OrderedDict.empty example_sections None.

(** Two sections that differ in spelling only, and one with two colons. *)
Definition clash_cfg : CfgParser :=
  mkCfgParser OrderedDict.empty
    [ ("command: foo", [ ("dir", "first") ]);
      ("command: zed", [ ("dir", "zed") ]);
      ("Command:FOO", [ ("dir", "last") ]);
      ("a:b:c", [ ("dir", "none") ]) ]
    None.

(** A fragment of [ast.literal_eval], enough to run the model on the list
    values of the test file: the three constant names and unsigned decimal
    integers.  Everything else is refused, as a bare word is. *)
Fixpoint decimal (s : string) (acc : Z) : option Z :=
  match s with
  | EmptyString => Some acc
  | String c r =>
      let n := nat_of_ascii c in
      if ((48 <=? n) && (n <=? 57))%nat
      then decimal r (10 * acc + Z.of_nat (n - 48))
      else None
  end.

Definition literal_eval_fragment (s : string) : option PyVal :=
  if String.eqb s "None" then Some PNone
  else if String.eqb s "True" then Some (PBool true)
  else if String.eqb s "False" then Some (PBool false)
  else match s with
       | EmptyString => None
       | String "0" (String _ _) => None
       | _ => option_map PInt (decimal s 0)
       end.

(** Interpolation of a value without reference: the value itself. *)
Definition no_interpolation (section opt value : string) (d : odict string)
  : result string := Ok value.

Section Parser.

(** [ast.literal_eval]: [None] when it raises (whatever it raises is an
    [Exception], which [_evaluate] catches) *)
Variable literal_eval : string -> option PyVal.

(** the interpolation step of the inherited [get] and [items], applied to
    section, option, raw value and the merged option dictionary *)
Variable interpolate :
  string -> string -> string -> odict string -> result string.

(* ----------------------------------------------------------------------- *)
(** ** The inherited ConfigParser methods the subclass calls *)

Definition DEFAULTSECT : string := "DEFAULT".

Definition optionxform (optionstr : string) : string := PyStr.lower optionstr.

Definition ConfigParser_sections (self : CfgParser) : list string :=
  OrderedDict.keys (_sections self).

Definition ConfigParser_has_section (self : CfgParser) (section : string)
  : bool :=
  OrderedDict.contains section (_sections self).

Definition ConfigParser_options (self : CfgParser) (section : string)
  : result (list string) :=
  match OrderedDict.get section (_sections self) with
  | None => Raise (NoSectionError section)
  | Some opts => Ok (OrderedDict.keys (OrderedDict.update opts (_defaults self)))
  end.

Definition ConfigParser_has_option (self : CfgParser) (section opt : string)
  : bool :=
  if negb (PyStr.truthy section) || String.eqb section DEFAULTSECT then
    OrderedDict.contains (optionxform opt) (_defaults self)
  else if negb (OrderedDict.contains section (_sections self)) then false
  else
    match OrderedDict.get section (_sections self) with
    | Some sec =>
        OrderedDict.contains (optionxform opt) sec
        || OrderedDict.contains (optionxform opt) (_defaults self)
    | None => false
    end.

Fixpoint interpolate_all (section : string) (d : odict string)
         (kvs : list (string * string)) : result (list (string * string)) :=
  match kvs with
  | [] => Ok []
  | (o, v) :: r =>
      match interpolate section o v d with
      | Raise e => Raise e
      | Ok v' =>
          match interpolate_all section d r with
          | Raise e => Raise e
          | Ok r' => Ok ((o, v') :: r')
          end
      end
  end.

Definition ConfigParser_items (self : CfgParser) (section : string)
  : result (list (string * string)) :=
  match OrderedDict.get section (_sections self) with
  | Some sec =>
      let d := OrderedDict.update (_defaults self) sec in
      interpolate_all section d d
  | None =>
      if negb (String.eqb section DEFAULTSECT) then
        Raise (NoSectionError section)
      else
        let d := _defaults self in interpolate_all section d d
  end.

Definition xform_keys (vars : odict string) : odict string :=
  fold_left (fun acc kv => OrderedDict.set (optionxform (fst kv)) (snd kv) acc)
            vars OrderedDict.empty.

(** lookup through [vars], then the section, then the defaults *)
Definition ConfigParser_get (self : CfgParser) (section opt : string)
           (raw : bool) (vars : odict string) : result string :=
  match
    match OrderedDict.get section (_sections self) with
    | Some sec => Ok sec
    | None =>
        if negb (String.eqb section DEFAULTSECT) then
          Raise (NoSectionError section)
        else Ok OrderedDict.empty
    end
  with
  | Raise e => Raise e
  | Ok sectiondict =>
      let d := OrderedDict.update
                 (OrderedDict.update (_defaults self) sectiondict)
                 (xform_keys vars) in
      let o := optionxform opt in
      match OrderedDict.get o d with
      | None => Raise (NoOptionError o section)
      | Some value =>
          if raw then Ok value else interpolate section o value d
      end
  end.

(* ----------------------------------------------------------------------- *)
(** ** class CfgParser *)

(** [SPLITTER = re.compile("[,\n]")] *)
Definition SPLITTER (c : ascii) : bool :=
  Ascii.eqb c "," || Ascii.eqb c (ascii_of_nat 10).

(** The helper class: the parser is the one the method is applied to, the
    object keeps the section name. *)
Record ConfigSection : Type := mkConfigSection { cs_section : string }.

(** [self._categories[k]] *)
Definition categories_item (k : string) : M (odict string) :=
  fun self =>
    match _categories self with
    | None => (Raise TypeError, self)
    | Some cats => (getitem cats k, self)
    end.

(** [self._categories[k1][k2]] *)
Definition categories_item2 (k1 k2 : string) : M string :=
  secs <- categories_item k1 ;; lift (fun _ => getitem secs k2).

(** One turn of the loop of [_parse_categories].  The unpacking of the
    two parts cannot fail: a string with one colon splits in two
    ([split_one_colon] below). *)
Definition parse_category (cats : odict (odict string)) (fullname : string)
  : odict (odict string) :=
  let section := PyStr.strip (optionxform fullname) in
  if (PyStr.count ":" section =? 1)%nat then
    match map PyStr.strip (PyStr.split ":" section) with
    | [cat; name] =>
        let (secs, cats') :=
          OrderedDict.setdefault cat OrderedDict.empty cats in
        OrderedDict.set cat (OrderedDict.set name fullname secs) cats'
    | _ => cats
    end
  else cats.

Definition _parse_categories : M unit :=
  fun self =>
    match _categories self with
    | Some _ => (Ok tt, self)
    | None =>
        (Ok tt,
         set_categories self
           (fold_left parse_category (ConfigParser_sections self)
                      OrderedDict.empty))
    end.

Definition section (section : string) (category : option string)
  : M ConfigSection :=
  match category with
  | None => ret (mkConfigSection section)
  | Some category =>
      _parse_categories ;;;
      full <- categories_item2 (optionxform category) section ;;
      ret (mkConfigSection full)
  end.

Definition categories : M (list string) :=
  _parse_categories ;;;
  fun self =>
    match _categories self with
    | None => (Raise TypeError, self)
    | Some cats => (Ok (OrderedDict.keys cats), self)
    end.

Definition sections (category : option string) : M (list string) :=
  match category with
  | None => lift (fun self => Ok (ConfigParser_sections self))
  | Some category =>
      _parse_categories ;;;
      secs <- categories_item (optionxform category) ;;
      ret (OrderedDict.keys secs)
  end.

Definition has_section (section : string) (category : option string)
  : M bool :=
  match category with
  | None => lift (fun self => Ok (ConfigParser_has_section self section))
  | Some category =>
      _parse_categories ;;;
      fun self =>
        match _categories self with
        | None => (Raise TypeError, self)
        | Some cats =>
            if OrderedDict.contains (optionxform category) cats then
              bind (categories_item (optionxform category))
                   (fun secs => ret (OrderedDict.contains section secs)) self
            else (Ok false, self)
        end
  end.

Definition options (section : string) (category : option string)
  : M (list string) :=
  match category with
  | None => lift (fun self => ConfigParser_options self section)
  | Some category =>
      _parse_categories ;;;
      full <- categories_item2 (optionxform category) (optionxform section) ;;
      lift (fun self => ConfigParser_options self full)
  end.

Definition has_option (section opt : string) (category : option string)
  : M bool :=
  match category with
  | None => lift (fun self => Ok (ConfigParser_has_option self section opt))
  | Some category =>
      _parse_categories ;;;
      full <- categories_item2 (optionxform category) (optionxform section) ;;
      lift (fun self => Ok (ConfigParser_has_option self full opt))
  end.

Definition items (section : string) (category : option string)
  : M (list (string * string)) :=
  match category with
  | None => lift (fun self => ConfigParser_items self section)
  | Some category =>
      _parse_categories ;;;
      full <- categories_item2 (optionxform category) (optionxform section) ;;
      lift (fun self => ConfigParser_items self full)
  end.

Definition _evaluate (val : string) : PyVal :=
  match literal_eval val with
  | Some v => v
  | None =>
      if PyStr.mem (PyStr.lower val) ["no"; "false"; "off"] then PBool false
      else if PyStr.mem (PyStr.lower val) ["yes"; "true"; "on"] then PBool true
      else PStr val
  end.

(** [get] from the call of the inherited [get] on *)
Definition get_value (section opt : string) (raw : bool)
           (vars : odict string) (evaluate : bool) (default : PyVal)
  : M PyVal :=
  fun self =>
    match ConfigParser_get self section opt raw vars with
    | Raise (NoOptionError o s) =>
        if ne_EMPTY default then (Ok default, self)
        else (Raise (NoOptionError o s), self)
    | Raise e => (Raise e, self)
    | Ok val => (Ok (if evaluate then _evaluate val else PStr val), self)
    end.

Definition get (section opt : string) (raw : bool) (vars : odict string)
           (category : option string) (evaluate : bool) (default : PyVal)
  : M PyVal :=
  match category with
  | None => get_value section opt raw vars evaluate default
  | Some category =>
      _parse_categories ;;;
      fun self =>
        match
          categories_item2 (optionxform category) (optionxform section) self
        with
        | (Ok full, self') =>
            get_value full opt raw vars evaluate default self'
        | (Raise (KeyError _), self') =>
            if ne_EMPTY default then (Ok default, self')
            else (Raise (raise_class NoSectionError_class), self')
        | (Raise e, self') => (Raise e, self')
        end
  end.

(** [getlist] after the value is fetched *)
Definition split_list (val : string) (evaluate : bool) : PyVal :=
  let lst :=
    map PyStr.strip
        (filter (fun s => PyStr.truthy (PyStr.strip s))
                (PyStr.split_on SPLITTER val)) in
  if evaluate then PList (map _evaluate lst) else PList (map PStr lst).

Definition getlist (section opt : string) (evaluate : bool)
           (category : option string) (default : PyVal) : M PyVal :=
  fun self =>
    match get section opt false OrderedDict.empty category false _EMPTY self
    with
    | (Raise (NoOptionError o s), self') =>
        if ne_EMPTY default then (Ok default, self')
        else (Raise (NoOptionError o s), self')
    | (Raise e, self') => (Raise e, self')
    | (Ok (PStr val), self') => (Ok (split_list val evaluate), self')
    | (Ok _, self') => (Raise TypeError, self')
    end.

Definition geteval (section opt : string) (category : option string)
           (default : PyVal) : M PyVal :=
  get section opt false OrderedDict.empty category true default.

(** the forwarding methods of [ConfigSection] *)
Definition ConfigSection_options (s : ConfigSection) : M (list string) :=
  options (cs_section s) None.
Definition ConfigSection_has_option (s : ConfigSection) (opt : string)
  : M bool :=
  has_option (cs_section s) opt None.
Definition ConfigSection_get (s : ConfigSection) (opt : string) (raw : bool)
           (vars : odict string) (evaluate : bool) (default : PyVal)
  : M PyVal :=
  get (cs_section s) opt raw vars None evaluate default.
Definition ConfigSection_getlist (s : ConfigSection) (opt : string)
           (evaluate : bool) (default : PyVal) : M PyVal :=
  getlist (cs_section s) opt evaluate None default.
Definition ConfigSection_geteval (s : ConfigSection) (opt : string)
           (default : PyVal) : M PyVal :=
  geteval (cs_section s) opt None default.
Definition ConfigSection_items (s : ConfigSection)
  : M (list (string * string)) :=
  items (cs_section s) None.

(* ----------------------------------------------------------------------- *)
(** ** Derived notions used by the statements *)

(** The index a parser has after [_parse_categories] ran on it. *)
Definition build_index (names : list string) : odict (odict string) :=
  fold_left parse_category names OrderedDict.empty.

(** The subscription every category-aware accessor but [has_section] and
    [section] performs: [self._categories[self.optionxform(category)]
    [self.optionxform(section)]] once the index is there. *)
Definition resolve (category section : string) : M string :=
  _parse_categories ;;;
  categories_item2 (optionxform category) (optionxform section).

(** the dict under a category, empty when the category is unknown *)
Definition under (cats : odict (odict string)) (cat : string) : odict string :=
  match OrderedDict.get cat cats with Some secs => secs | None => [] end.

(** The calls a client can make on a parser, and a change of the raw
    storage by the inherited methods ([read], [add_section],
    [remove_section], [set]), which know nothing of [_categories]. *)
Inductive call : Type :=
| Call_categories
| Call_sections (category : option string)
| Call_has_section (section : string) (category : option string)
| Call_options (section : string) (category : option string)
| Call_has_option (section opt : string) (category : option string)
| Call_items (section : string) (category : option string)
| Call_get (section opt : string) (raw : bool) (vars : odict string)
           (category : option string) (evaluate : bool) (default : PyVal)
| Call_getlist (section opt : string) (evaluate : bool)
               (category : option string) (default : PyVal)
| Call_geteval (section opt : string) (category : option string)
               (default : PyVal)
| Call_section (section : string) (category : option string)
| Inherited_update (defaults : odict string) (sects : odict (odict string)).

(** the parser after a call *)
Definition after_call (c : call) (self : CfgParser) : CfgParser :=
  match c with
  | Call_categories => snd (categories self)
  | Call_sections category => snd (sections category self)
  | Call_has_section s category => snd (has_section s category self)
  | Call_options s category => snd (options s category self)
  | Call_has_option s o category => snd (has_option s o category self)
  | Call_items s category => snd (items s category self)
  | Call_get s o raw vars category evaluate default =>
      snd (get s o raw vars category evaluate default self)
  | Call_getlist s o evaluate category default =>
      snd (getlist s o evaluate category default self)
  | Call_geteval s o category default =>
      snd (geteval s o category default self)
  | Call_section s category => snd (section s category self)
  | Inherited_update d s => mkCfgParser d s (_categories self)
  end.

Definition after_calls (cs : list call) (self : CfgParser) : CfgParser :=
  fold_left (fun st c => after_call c st) cs self.

(* ----------------------------------------------------------------------- *)
(** ** The description the statements compare the code with *)

(** equality of two characters up to the case of a letter *)
Definition same_letter (c d : ascii) : bool :=
  let m := nat_of_ascii c in
  let n := nat_of_ascii d in
  ((m =? n)
   || ((65 <=? m) && (m <=? 90) && (n =? m + 32))
   || ((65 <=? n) && (n <=? 90) && (m =? n + 32)))%nat.

(** equality of two strings without regard to case *)
Fixpoint same_nocase (s t : string) : bool :=
  match s, t with
  | EmptyString, EmptyString => true
  | String c s', String d t' => same_letter c d && same_nocase s' t'
  | _, _ => false
  end.

(** a string without capital letter *)
Fixpoint no_upper (s : string) : bool :=
  match s with
  | EmptyString => true
  | String c r => negb (PyStr.is_upper c) && no_upper r
  end.

(** the elements of a list in the order of their first appearance *)
Fixpoint first_appearance (l : list string) : list string :=
  match l with
  | [] => []
  | x :: r =>
      x :: filter (fun y => negb (String.eqb y x)) (first_appearance r)
  end.

(** the text before, and the text after, the first [c] of a string *)
Fixpoint before (c : ascii) (s : string) : string :=
  match s with
  | EmptyString => EmptyString
  | String d r => if Ascii.eqb d c then EmptyString else String d (before c r)
  end.

Fixpoint after (c : ascii) (s : string) : string :=
  match s with
  | EmptyString => EmptyString
  | String d r => if Ascii.eqb d c then r else after c r
  end.

(** The (category, bare name) of a section name: defined when the
    case-folded, trimmed name has exactly one colon. *)
Definition spec_category_name (fullname : string) : option (string * string) :=
  let n := PyStr.strip (PyStr.lower fullname) in
  if (PyStr.count ":" n =? 1)%nat
  then Some (PyStr.strip (before ":" n), PyStr.strip (after ":" n))
  else None.

Definition is_entry (cat name fullname : string) : bool :=
  match spec_category_name fullname with
  | Some (c, n) => String.eqb c cat && String.eqb n name
  | None => false
  end.

Definition in_category (cat fullname : string) : bool :=
  match spec_category_name fullname with
  | Some (c, _) => String.eqb c cat
  | None => false
  end.

Definition cat_of (fullname : string) : list string :=
  match spec_category_name fullname with Some (c, _) => [c] | None => [] end.

Definition name_of (fullname : string) : list string :=
  match spec_category_name fullname with Some (_, n) => [n] | None => [] end.

(** category names in the order first met *)
Definition spec_categories (names : list string) : list string :=
  first_appearance (flat_map cat_of names).

(** bare names of a category in the order first met *)
Definition spec_sections (names : list string) (cat : string) : list string :=
  first_appearance (flat_map name_of (filter (in_category cat) names)).

(** the last section name with the given category and bare name *)
Definition spec_last (names : list string) (cat name : string)
  : option string :=
  find (is_entry cat name) (rev names).

(** the segments of [segs] joined by the delimiters [ds] *)
Fixpoint interleave (first : string) (rest : list (ascii * string)) : string :=
  match rest with
  | [] => first
  | (d, s) :: r => (first ++ String d (interleave s r))%string
  end.

Fixpoint has_char (p : ascii -> bool) (s : string) : bool :=
  match s with
  | EmptyString => false
  | String c r => p c || has_char p r
  end.

(** The three-way rule of the value evaluator, as a relation between a
    raw string and its value. *)
Inductive evaluates (s : string) : PyVal -> Prop :=
| evaluates_literal v :
    literal_eval s = Some v -> evaluates s v
| evaluates_false k :
    literal_eval s = None ->
    In k ["no"; "false"; "off"] -> same_nocase s k = true ->
    evaluates s (PBool false)
| evaluates_true k :
    literal_eval s = None ->
    In k ["yes"; "true"; "on"] -> same_nocase s k = true ->
    evaluates s (PBool true)
| evaluates_unchanged :
    literal_eval s = None ->
    (forall k, In k ["no"; "false"; "off"; "yes"; "true"; "on"] ->
               same_nocase s k = false) ->
    evaluates s (PStr s).

(** a segment and the delimiter before it, as [split_list] expects them *)
Definition segment_ok (ds : ascii * string) : Prop :=
  SPLITTER (fst ds) = true /\ has_char SPLITTER (snd ds) = false.

(** the items of a list value *)
Definition items_of (v : PyVal) : list PyVal :=
  match v with PList l => l | _ => [] end.

(** the index a parser works with once [_parse_categories] has run: the
    cached one if there is one, a fresh one otherwise *)
Definition built (self : CfgParser) : odict (odict string) :=
  match _categories self with
  | Some cats => cats
  | None => build_index (ConfigParser_sections self)
  end.

(** [cats[k1][k2]] *)
Definition lookup (cats : odict (odict string)) (k1 k2 : string)
  : result string :=
  match getitem cats k1 with
  | Ok secs => getitem secs k2
  | Raise e => Raise e
  end.

(** what is done with a resolved section name *)
Definition and_then {A B} (r : result A) (k : A -> result B) : result B :=
  match r with Ok a => k a | Raise e => Raise e end.

(** the calls that read the parser, as opposed to a change of the raw
    storage by an inherited method *)
Definition is_accessor (c : call) : bool :=
  match c with Inherited_update _ _ => false | _ => true end.

Definition is_None (category : option string) : bool :=
  match category with None => true | Some _ => false end.

(** the reading calls made without a category *)
Definition without_category (c : call) : bool :=
  match c with
  | Call_categories => false
  | Call_sections category => is_None category
  | Call_has_section _ category => is_None category
  | Call_options _ category => is_None category
  | Call_has_option _ _ category => is_None category
  | Call_items _ category => is_None category
  | Call_get _ _ _ _ category _ _ => is_None category
  | Call_getlist _ _ _ category _ => is_None category
  | Call_geteval _ _ category _ => is_None category
  | Call_section _ category => is_None category
  | Inherited_update _ _ => false
  end.

(** the number of characters of a class in a string *)
Fixpoint count_if (p : ascii -> bool) (s : string) : nat :=
  match s with
  | EmptyString => 0
  | String c r => (if p c then 1 else 0) + count_if p r
  end.

(** the strings joined by single commas *)
Definition join_commas (l : list string) : string :=
  match l with
  | [] => EmptyString
  | x :: r => interleave x (map (fun s => (","%char, s)) r)
  end.

(** the strings among the items of a list value *)
Definition strings_of (v : PyVal) : list string :=
  flat_map (fun x => match x with PStr s => [s] | _ => [] end) (items_of v).

(** a string of white space only *)
Fixpoint all_space (s : string) : bool :=
  match s with
  | EmptyString => true
  | String c r => PyStr.is_space c && all_space r
  end.

(** two spellings of a section name: the same up to the case of the letters
    and to white space around *)
Definition respelled (a b : string) : Prop :=
  exists ws1 ws2,
    all_space ws1 = true /\ all_space ws2 = true /\
    same_nocase a (ws1 ++ b ++ ws2)%string = true.

(** The section names of the test configuration, spelled otherwise. *)
Definition respelled_cfg : CfgParser :=
  mkCfgParser OrderedDict.empty
    [ ("EVALVALS", []); (" ListVals", []);
      ("COMMAND: FOO  ", [ ("dir", "bar") ]);
      ("   command:    BAR ", [ ("dir", "baz") ]);
      ("commanD:baz", [ ("dir", "quux") ]);
      (" Results: Hello ", [ ("type", "add") ]) ]
    None.

(* ----------------------------------------------------------------------- *)
(** ** Strings *)

Lemma ascii_eqb_of_nat (m : nat) (d : ascii) :
  m < 256 -> Ascii.eqb (ascii_of_nat m) d = (m =? nat_of_ascii d)%nat.
Proof.
  intros Hm.
  destruct (Nat.eqb_spec m (nat_of_ascii d)) as [E | E].
  - subst m. rewrite ascii_nat_embedding. apply Ascii.eqb_refl.
  - apply Ascii.eqb_neq. intros <-. apply E.
    now rewrite nat_ascii_embedding.
Qed.

Lemma ascii_eqb_nat (c d : ascii) :
  Ascii.eqb c d = (nat_of_ascii c =? nat_of_ascii d)%nat.
Proof.
  rewrite <- (ascii_nat_embedding c) at 1.
  apply ascii_eqb_of_nat, nat_ascii_bounded.
Qed.

Ltac nat_cases :=
  repeat match goal with
         | |- context [(?a <=? ?b)%nat] => destruct (Nat.leb_spec a b)
         | |- context [(?a =? ?b)%nat] => destruct (Nat.eqb_spec a b)
         end;
  simpl; try reflexivity; try discriminate; try lia.

Lemma same_letter_lower (c d : ascii) :
  PyStr.is_upper d = false ->
  same_letter c d = Ascii.eqb (PyStr.lower_char c) d.
Proof.
  unfold same_letter, PyStr.lower_char, PyStr.is_upper. cbv zeta.
  pose proof (nat_ascii_bounded c) as Hc.
  destruct ((65 <=? nat_of_ascii c) && (nat_of_ascii c <=? 90))%nat eqn:Hu.
  - apply andb_true_iff in Hu as [H1 H2]. apply Nat.leb_le in H1, H2.
    rewrite ascii_eqb_of_nat by lia.
    generalize dependent (nat_of_ascii c). intros m Hm H1 H2.
    generalize (nat_of_ascii d). intros n. nat_cases.
  - rewrite (ascii_eqb_nat c d). revert Hu.
    generalize (nat_of_ascii c), (nat_of_ascii d). intros m n. nat_cases.
Qed.

(** comparing without regard to case with a lower-case word is comparing
    the lower-cased string with it *)
Lemma same_nocase_lower (s k : string) :
  no_upper k = true ->
  same_nocase s k = String.eqb (PyStr.lower s) k.
Proof.
  revert k. induction s as [| c s IH]; intros [| d k] Hk; simpl; try reflexivity.
  simpl in Hk. apply andb_true_iff in Hk as [Hd Hk].
  apply negb_true_iff in Hd.
  rewrite (same_letter_lower c d Hd), (IH k Hk).
  destruct (Ascii.eqb (PyStr.lower_char c) d); reflexivity.
Qed.

Lemma mem_In (s : string) (l : list string) :
  PyStr.mem s l = true <-> In s l.
Proof.
  unfold PyStr.mem. rewrite existsb_exists. split.
  - intros (x & Hx & E). apply String.eqb_eq in E. now subst.
  - intros H. exists s. split; [assumption | apply String.eqb_refl].
Qed.

Lemma lower_idem (s : string) : PyStr.lower (PyStr.lower s) = PyStr.lower s.
Proof.
  induction s as [| c s IH]; simpl; [reflexivity |]. rewrite IH. f_equal.
  unfold PyStr.lower_char at 1.
  destruct (PyStr.is_upper (PyStr.lower_char c)) eqn:E; [| reflexivity].
  exfalso. revert E. unfold PyStr.lower_char, PyStr.is_upper. cbv zeta.
  pose proof (nat_ascii_bounded c).
  destruct ((65 <=? nat_of_ascii c) && (nat_of_ascii c <=? 90))%nat eqn:Hu.
  - apply andb_true_iff in Hu as [H1 H2]. apply Nat.leb_le in H1, H2.
    rewrite nat_ascii_embedding by lia. intros E.
    apply andb_true_iff in E as [_ E]. apply Nat.leb_le in E. lia.
  - rewrite Hu. discriminate.
Qed.

Lemma rstrip_idem (s : string) : PyStr.rstrip (PyStr.rstrip s) = PyStr.rstrip s.
Proof.
  induction s as [| c s IH]; simpl; [reflexivity |].
  destruct (PyStr.rstrip s) as [| c' r'] eqn:E.
  - destruct (PyStr.is_space c) eqn:Hc; simpl; [reflexivity |].
    now rewrite Hc.
  - simpl. simpl in IH. rewrite IH. reflexivity.
Qed.

Lemma rstrip_head (c : ascii) (s : string) :
  PyStr.is_space c = false ->
  exists r, PyStr.rstrip (String c s) = String c r.
Proof.
  intros Hc. simpl. destruct (PyStr.rstrip s); [rewrite Hc |]; eauto.
Qed.

Lemma lstrip_head (s : string) :
  PyStr.lstrip s = EmptyString \/
  exists c r, PyStr.lstrip s = String c r /\ PyStr.is_space c = false.
Proof.
  induction s as [| c s IH]; simpl; [now left |].
  destruct (PyStr.is_space c) eqn:Hc; [assumption | right; eauto].
Qed.

(** a stripped string has nothing left to strip *)
Lemma strip_idem (s : string) : PyStr.strip (PyStr.strip s) = PyStr.strip s.
Proof.
  unfold PyStr.strip.
  destruct (lstrip_head s) as [E | (c & r & E & Hc)]; rewrite E.
  - reflexivity.
  - destruct (rstrip_head c r Hc) as (r' & Hr).
    assert (L : PyStr.lstrip (PyStr.rstrip (String c r))
                = PyStr.rstrip (String c r)).
    { rewrite Hr. simpl. now rewrite Hc. }
    rewrite L. apply rstrip_idem.
Qed.

Lemma has_char_lstrip p (s : string) :
  has_char p s = false -> has_char p (PyStr.lstrip s) = false.
Proof.
  induction s as [| c s IH]; simpl; [trivial |].
  intros H. apply orb_false_iff in H as [H1 H2].
  destruct (PyStr.is_space c); [auto | simpl; now rewrite H1, H2].
Qed.

Lemma has_char_rstrip p (s : string) :
  has_char p s = false -> has_char p (PyStr.rstrip s) = false.
Proof.
  induction s as [| c s IH]; simpl; [trivial |].
  intros H. apply orb_false_iff in H as [H1 H2]. specialize (IH H2).
  destruct (PyStr.rstrip s) as [| c' r'].
  - destruct (PyStr.is_space c); simpl; [reflexivity | now rewrite H1].
  - simpl. simpl in IH. now rewrite H1, IH.
Qed.

Lemma has_char_strip p (s : string) :
  has_char p s = false -> has_char p (PyStr.strip s) = false.
Proof.
  intros H. now apply has_char_rstrip, has_char_lstrip.
Qed.

Lemma interleave_String (c : ascii) (s : string) rest :
  interleave (String c s) rest = String c (interleave s rest).
Proof. destruct rest as [| [d t] r]; reflexivity. Qed.

Lemma split_on_not_nil p (s : string) : PyStr.split_on p s <> [].
Proof.
  induction s as [| c s IH]; simpl; [discriminate |].
  destruct (p c); [discriminate |].
  destruct (PyStr.split_on p s); discriminate.
Qed.

Lemma split_on_String_other p (c : ascii) (s : string) :
  p c = false ->
  PyStr.split_on p (String c s) =
  match PyStr.split_on p s with
  | h :: t => String c h :: t
  | [] => [String c EmptyString]
  end.
Proof. intros H. simpl. now rewrite H. Qed.

(** splitting what was joined gives the segments back *)
Lemma split_on_interleave p rest :
  forall first,
    has_char p first = false ->
    Forall (fun ds => p (fst ds) = true /\ has_char p (snd ds) = false) rest ->
    PyStr.split_on p (interleave first rest) = first :: map snd rest.
Proof.
  induction rest as [| [d t] rest IH]; intros first.
  - intros Hf _. simpl.
    induction first as [| c f IHf]; simpl; [reflexivity |].
    simpl in Hf. apply orb_false_iff in Hf as [Hc Hf].
    rewrite Hc, (IHf Hf). reflexivity.
  - intros Hf Hr. inversion Hr as [| x l [Hd Ht] Hr']; subst.
    simpl in Hd, Ht.
    induction first as [| c f IHf].
    + simpl. rewrite Hd. f_equal. now apply IH.
    + simpl in Hf. apply orb_false_iff in Hf as [Hc Hf].
      rewrite interleave_String, (split_on_String_other p c _ Hc).
      rewrite (IHf Hf). reflexivity.
Qed.

(** every string is a sequence of segments joined by delimiters *)
Lemma interleave_exists p (s : string) :
  exists first rest,
    s = interleave first rest /\ has_char p first = false /\
    Forall (fun ds => p (fst ds) = true /\ has_char p (snd ds) = false) rest.
Proof.
  induction s as [| c s (f & r & E & Hf & Hr)].
  - exists EmptyString, []. repeat split; constructor.
  - destruct (p c) eqn:Hc.
    + exists EmptyString, ((c, f) :: r). repeat split.
      * simpl. now rewrite E.
      * constructor; [split; assumption | assumption].
    + exists (String c f), r. repeat split.
      * rewrite interleave_String. now rewrite E.
      * simpl. now rewrite Hc, Hf.
      * assumption.
Qed.

Lemma split_no_sep (c : ascii) (s : string) :
  PyStr.count c s = 0 -> PyStr.split c s = [s].
Proof.
  unfold PyStr.split. induction s as [| d s IH]; simpl; [reflexivity |].
  destruct (Ascii.eqb d c); [discriminate |]. simpl. intros H.
  now rewrite (IH H).
Qed.

(** a string with one separator splits in two: the unpacking in
    [_parse_categories] always succeeds *)
Lemma split_one_colon (c : ascii) (s : string) :
  PyStr.count c s = 1 -> PyStr.split c s = [before c s; after c s].
Proof.
  induction s as [| d s IH]; simpl; [discriminate |].
  unfold PyStr.split in *. simpl.
  destruct (Ascii.eqb d c); simpl; intros H.
  - f_equal. apply (split_no_sep c s). lia.
  - rewrite (IH H). reflexivity.
Qed.

(* ----------------------------------------------------------------------- *)
(** ** The value evaluator and the list splitter *)

Lemma nocase_mem (s : string) (l : list string) :
  forallb no_upper l = true ->
  (PyStr.mem (PyStr.lower s) l = true <->
   exists k, In k l /\ same_nocase s k = true).
Proof.
  intros Hl. rewrite mem_In. rewrite forallb_forall in Hl. split.
  - intros H. exists (PyStr.lower s). split; [assumption |].
    rewrite same_nocase_lower by auto. apply String.eqb_refl.
  - intros (k & Hk & E). rewrite same_nocase_lower in E by auto.
    apply String.eqb_eq in E. now rewrite E.
Qed.

Lemma keywords_disjoint (k : string) :
  In k ["no"; "false"; "off"] -> In k ["yes"; "true"; "on"] -> False.
Proof.
  simpl. intros [<- | [<- | [<- | []]]] [E | [E | [E | []]]]; discriminate.
Qed.

(** C1.  For every raw string the evaluator returns a value (it is a
    total function, nothing is raised) and that value is the one the
    three-way rule gives: the literal value when the string parses as a
    literal; otherwise false for a string that is no, false or off up to
    case, true for yes, true or on up to case, and the string unchanged in
    the remaining case.  The rule gives no other value. *)
Theorem evaluate_three_way (s : string) :
  evaluates s (_evaluate s) /\
  (forall v, evaluates s v -> v = _evaluate s).
Proof.
  clear interpolate.
  assert (Mn : PyStr.mem (PyStr.lower s) ["no"; "false"; "off"] = true <->
               exists k, In k ["no"; "false"; "off"] /\ same_nocase s k = true)
    by (now apply nocase_mem).
  assert (My : PyStr.mem (PyStr.lower s) ["yes"; "true"; "on"] = true <->
               exists k, In k ["yes"; "true"; "on"] /\ same_nocase s k = true)
    by (now apply nocase_mem).
  assert (Both : PyStr.mem (PyStr.lower s) ["no"; "false"; "off"] = true ->
                 PyStr.mem (PyStr.lower s) ["yes"; "true"; "on"] = true ->
                 False).
  { rewrite !mem_In. apply keywords_disjoint. }
  unfold _evaluate.
  destruct (literal_eval s) as [v0 |] eqn:L.
  - split; [now constructor |].
    intros v H. inversion H; congruence.
  - set (bn := PyStr.mem (PyStr.lower s) ["no"; "false"; "off"]) in Mn, Both |- *.
    set (byes := PyStr.mem (PyStr.lower s) ["yes"; "true"; "on"]) in My, Both |- *.
    assert (An : forall k, In k ["no"; "false"; "off"] ->
                           same_nocase s k = true -> bn = true)
      by (intros k ? ?; apply Mn; now exists k).
    assert (Ay : forall k, In k ["yes"; "true"; "on"] ->
                           same_nocase s k = true -> byes = true)
      by (intros k ? ?; apply My; now exists k).
    split.
    + destruct bn eqn:En.
      * destruct (proj1 Mn eq_refl) as (k & Hk & E).
        now apply evaluates_false with k.
      * destruct byes eqn:Ey.
        -- destruct (proj1 My eq_refl) as (k & Hk & E).
           now apply evaluates_true with k.
        -- apply evaluates_unchanged; [assumption |].
           intros k Hk. destruct (same_nocase s k) eqn:E; [| reflexivity].
           assert (In k ["no"; "false"; "off"] \/ In k ["yes"; "true"; "on"])
             as [H | H] by (simpl in Hk |- *; tauto).
           ++ now apply An in H.
           ++ now apply Ay in H.
    + intros v H.
      inversion H as [? L' | k Hl Hk E | k Hl Hk E | Hl Hall]; subst.
      * congruence.
      * now rewrite (An k Hk E).
      * pose proof (Ay k Hk E) as Y. rewrite Y.
        destruct bn; [exfalso; now apply Both | reflexivity].
      * destruct bn eqn:En.
        { destruct (proj1 Mn eq_refl) as (k & Hk & E).
          rewrite Hall in E; [discriminate | simpl in Hk |- *; tauto]. }
        destruct byes eqn:Ey; [| reflexivity].
        destruct (proj1 My eq_refl) as (k & Hk & E).
        rewrite Hall in E; [discriminate | simpl in Hk |- *; tauto].
Qed.

Lemma split_on_segments p (s : string) :
  Forall (fun x => has_char p x = false) (PyStr.split_on p s).
Proof.
  destruct (interleave_exists p s) as (f & r & -> & Hf & Hr).
  rewrite split_on_interleave by assumption.
  constructor; [assumption |].
  apply Forall_map. eapply Forall_impl; [| exact Hr].
  intros a [_ H]. exact H.
Qed.

Lemma truthy_not_empty (s : string) :
  PyStr.truthy s = true <-> s <> EmptyString.
Proof. destruct s; simpl; split; congruence. Qed.

(** C6.  Every raw string is a sequence of segments free of commas and
    line feeds, joined by single commas or line feeds; the list value of
    such a string is made of its segments, each trimmed, those that are
    empty once trimmed left out, in their order and with their repetitions;
    with [evaluate] each of them goes through the value evaluator.  A
    surviving item is not empty, is trimmed and holds no delimiter.  The
    three examples of the specification hold. *)
Theorem split_list_segments :
  (forall val, exists first rest,
      val = interleave first rest /\
      has_char SPLITTER first = false /\ Forall segment_ok rest) /\
  (forall first rest evaluate,
      has_char SPLITTER first = false -> Forall segment_ok rest ->
      split_list (interleave first rest) evaluate =
      PList (map (if evaluate then _evaluate else PStr)
                 (map PyStr.strip
                      (filter (fun s => PyStr.truthy (PyStr.strip s))
                              (first :: map snd rest))))) /\
  (forall val s,
      In (PStr s) (items_of (split_list val false)) ->
      s <> EmptyString /\ PyStr.strip s = s /\ has_char SPLITTER s = false) /\
  split_list ("a,b" ++ PyStr.nl ++ "c")%string false
    = PList [PStr "a"; PStr "b"; PStr "c"] /\
  split_list "" false = PList [] /\
  split_list " , , " false = PList [].
Proof.
  split; [| split; [| split; [| repeat split; reflexivity]]].
  - intros val. apply interleave_exists.
  - intros first rest evaluate Hf Hr. unfold split_list.
    rewrite split_on_interleave by assumption.
    destruct evaluate; reflexivity.
  - intros val s. unfold split_list. simpl.
    rewrite in_map_iff. intros (x & E & Hx). injection E as ->.
    apply in_map_iff in Hx as (y & <- & Hy).
    apply filter_In in Hy as [Hy Ht].
    split; [now apply truthy_not_empty |].
    split; [apply strip_idem |].
    apply has_char_strip.
    pose proof (split_on_segments SPLITTER val) as F.
    rewrite Forall_forall in F. now apply F.
Qed.

(* ----------------------------------------------------------------------- *)
(** ** Ordered dictionaries *)

Lemma od_get_set_same {V} (k : string) (v : V) (d : odict V) :
  OrderedDict.get k (OrderedDict.set k v d) = Some v.
Proof.
  induction d as [| [k' v'] d IH]; simpl.
  - now rewrite String.eqb_refl.
  - destruct (String.eqb k k') eqn:E; simpl; rewrite E; auto.
Qed.

Lemma od_get_set_other {V} (k k' : string) (v : V) (d : odict V) :
  k <> k' ->
  OrderedDict.get k' (OrderedDict.set k v d) = OrderedDict.get k' d.
Proof.
  intros N. induction d as [| [k0 v0] d IH]; simpl.
  - destruct (String.eqb_spec k' k); congruence.
  - destruct (String.eqb_spec k k0) as [-> | N0]; simpl.
    + destruct (String.eqb_spec k' k0); congruence.
    + rewrite IH. reflexivity.
Qed.

Lemma od_contains_keys {V} (k : string) (d : odict V) :
  OrderedDict.contains k d = PyStr.mem k (OrderedDict.keys d).
Proof.
  unfold OrderedDict.contains, PyStr.mem, OrderedDict.keys.
  induction d as [| [k' v'] d IH]; simpl; [reflexivity |].
  destruct (String.eqb k k'); simpl; auto.
Qed.

Lemma od_keys_set {V} (k : string) (v : V) (d : odict V) :
  OrderedDict.keys (OrderedDict.set k v d) =
  if OrderedDict.contains k d then OrderedDict.keys d
  else OrderedDict.keys d ++ [k].
Proof.
  unfold OrderedDict.contains, OrderedDict.keys.
  induction d as [| [k' v'] d IH]; simpl; [reflexivity |].
  destruct (String.eqb k k') eqn:E; simpl; [reflexivity |].
  rewrite IH. destruct (OrderedDict.get k d); reflexivity.
Qed.

Lemma od_set_set {V} (k : string) (v v0 : V) (d : odict V) :
  OrderedDict.set k v (OrderedDict.set k v0 d) = OrderedDict.set k v d.
Proof.
  induction d as [| [k' v'] d IH]; simpl.
  - now rewrite String.eqb_refl.
  - destruct (String.eqb k k') eqn:E; simpl; rewrite E; [| rewrite IH];
      reflexivity.
Qed.

Lemma od_get_In {V} (k : string) (v : V) (d : odict V) :
  OrderedDict.get k d = Some v -> In k (OrderedDict.keys d).
Proof.
  intros H. apply mem_In. rewrite <- od_contains_keys.
  unfold OrderedDict.contains. now rewrite H.
Qed.

(* ----------------------------------------------------------------------- *)
(** ** Order of first appearance *)

Lemma mem_app (x : string) (l l' : list string) :
  PyStr.mem x (l ++ l') = PyStr.mem x l || PyStr.mem x l'.
Proof. apply existsb_app. Qed.

Lemma mem_filter_ne (x a : string) (l : list string) :
  PyStr.mem x (filter (fun y => negb (String.eqb y a)) l) =
  negb (String.eqb x a) && PyStr.mem x l.
Proof.
  unfold PyStr.mem. induction l as [| y l IH]; simpl.
  - now rewrite andb_false_r.
  - destruct (String.eqb_spec y a) as [-> | Ny]; simpl; rewrite IH.
    + destruct (String.eqb_spec x a); simpl; reflexivity.
    + destruct (String.eqb_spec x y) as [-> | Nx]; simpl; [| reflexivity].
      destruct (String.eqb_spec y a); [contradiction | reflexivity].
Qed.

Lemma mem_first_appearance (x : string) (l : list string) :
  PyStr.mem x (first_appearance l) = PyStr.mem x l.
Proof.
  induction l as [| a l IH]; [reflexivity |].
  change (PyStr.mem x (first_appearance (a :: l)))
    with (String.eqb x a
          || PyStr.mem x (filter (fun y => negb (String.eqb y a))
                                 (first_appearance l))).
  rewrite mem_filter_ne, IH.
  change (PyStr.mem x (a :: l)) with (String.eqb x a || PyStr.mem x l).
  destruct (String.eqb x a); reflexivity.
Qed.

Lemma first_appearance_snoc (x : string) (l : list string) :
  first_appearance (l ++ [x]) =
  if PyStr.mem x l then first_appearance l else first_appearance l ++ [x].
Proof.
  induction l as [| a l IH]; [reflexivity |].
  change (PyStr.mem x (a :: l)) with (String.eqb x a || PyStr.mem x l).
  simpl. rewrite IH.
  destruct (String.eqb x a) eqn:E; simpl.
  - destruct (PyStr.mem x l); [reflexivity |].
    rewrite filter_app. simpl. rewrite E. simpl. now rewrite app_nil_r.
  - destruct (PyStr.mem x l); [reflexivity |].
    rewrite filter_app. simpl. rewrite E. reflexivity.
Qed.

(* ----------------------------------------------------------------------- *)
(** ** The index built by [_parse_categories] *)

(** one turn of the loop, with the two parts of the name spelled out *)
Lemma parse_category_eq (cats : odict (odict string)) (fullname : string) :
  parse_category cats fullname =
  match spec_category_name fullname with
  | Some (c, n) =>
      OrderedDict.set c (OrderedDict.set n fullname (under cats c)) cats
  | None => cats
  end.
Proof.
  unfold parse_category, spec_category_name, optionxform. cbv zeta.
  destruct (PyStr.count ":" (PyStr.strip (PyStr.lower fullname)) =? 1)%nat
    eqn:E; [| reflexivity].
  apply Nat.eqb_eq in E. rewrite (split_one_colon _ _ E). simpl map.
  unfold OrderedDict.setdefault, under.
  destruct (OrderedDict.get _ cats); [reflexivity |].
  apply od_set_set.
Qed.

Lemma build_index_snoc (names : list string) (x : string) :
  build_index (names ++ [x]) = parse_category (build_index names) x.
Proof. unfold build_index. now rewrite fold_left_app. Qed.

Lemma under_set (cats : odict (odict string)) (c c' : string)
      (v : odict string) :
  under (OrderedDict.set c v cats) c' =
  if String.eqb c c' then v else under cats c'.
Proof.
  unfold under. destruct (String.eqb_spec c c') as [-> | N].
  - now rewrite od_get_set_same.
  - now rewrite od_get_set_other.
Qed.

Lemma spec_last_snoc (names : list string) (x cat name : string) :
  spec_last (names ++ [x]) cat name =
  if is_entry cat name x then Some x else spec_last names cat name.
Proof. unfold spec_last. rewrite rev_app_distr. reflexivity. Qed.

Lemma spec_sections_snoc (names : list string) (x cat : string) :
  spec_sections (names ++ [x]) cat =
  match spec_category_name x with
  | Some (c, n) =>
      if String.eqb c cat then
        if PyStr.mem n (spec_sections names cat) then spec_sections names cat
        else spec_sections names cat ++ [n]
      else spec_sections names cat
  | None => spec_sections names cat
  end.
Proof.
  unfold spec_sections. rewrite filter_app. simpl.
  unfold in_category at 2, name_of at 1.
  destruct (spec_category_name x) as [[c n] |] eqn:E.
  - destruct (String.eqb c cat); rewrite flat_map_app; simpl.
    + unfold name_of at 2. rewrite E. simpl.
      rewrite first_appearance_snoc, mem_first_appearance. reflexivity.
    + now rewrite app_nil_r.
  - rewrite flat_map_app. simpl. now rewrite app_nil_r.
Qed.

Lemma spec_categories_snoc (names : list string) (x : string) :
  spec_categories (names ++ [x]) =
  match spec_category_name x with
  | Some (c, _) =>
      if PyStr.mem c (spec_categories names) then spec_categories names
      else spec_categories names ++ [c]
  | None => spec_categories names
  end.
Proof.
  unfold spec_categories. rewrite flat_map_app. simpl. unfold cat_of at 2.
  destruct (spec_category_name x) as [[c n] |]; simpl.
  - rewrite first_appearance_snoc, mem_first_appearance. reflexivity.
  - now rewrite app_nil_r.
Qed.

(** what the index holds, for any list of section names *)
Lemma build_index_spec (names : list string) :
  OrderedDict.keys (build_index names) = spec_categories names /\
  (forall cat,
      OrderedDict.keys (under (build_index names) cat)
      = spec_sections names cat) /\
  (forall cat name,
      OrderedDict.get name (under (build_index names) cat)
      = spec_last names cat name).
Proof.
  induction names as [| x names (Ka & Kb & Kc)] using rev_ind.
  - repeat split; reflexivity.
  - rewrite build_index_snoc, parse_category_eq.
    rewrite spec_categories_snoc.
    destruct (spec_category_name x) as [[c n] |] eqn:E.
    + split; [| split].
      * rewrite od_keys_set, od_contains_keys, Ka. reflexivity.
      * intros cat. rewrite under_set, spec_sections_snoc, E.
        destruct (String.eqb c cat) eqn:Ec; [| apply Kb].
        apply String.eqb_eq in Ec. subst cat.
        rewrite od_keys_set, od_contains_keys, Kb. reflexivity.
      * intros cat name. rewrite under_set, spec_last_snoc.
        unfold is_entry. rewrite E.
        destruct (String.eqb c cat) eqn:Ec; simpl; [| apply Kc].
        apply String.eqb_eq in Ec. subst cat.
        destruct (String.eqb_spec n name) as [-> | N].
        -- apply od_get_set_same.
        -- rewrite od_get_set_other by assumption. apply Kc.
    + split; [assumption | split].
      * intros cat. rewrite spec_sections_snoc, E. apply Kb.
      * intros cat name. rewrite spec_last_snoc. unfold is_entry.
        rewrite E. apply Kc.
Qed.

(* ----------------------------------------------------------------------- *)
(** ** The accessors, run *)

Lemma parse_run (self : CfgParser) :
  _parse_categories self = (Ok tt, set_categories self (built self)).
Proof.
  unfold _parse_categories, built. destruct self as [d s [c |]]; reflexivity.
Qed.

Lemma built_set_categories (self : CfgParser) :
  built (set_categories self (built self)) = built self.
Proof. reflexivity. Qed.

Lemma item2_run (k1 k2 : string) (self : CfgParser) :
  categories_item2 k1 k2 (set_categories self (built self)) =
  (lookup (built self) k1 k2, set_categories self (built self)).
Proof.
  unfold categories_item2, categories_item, bind, lift, lookup. simpl.
  destruct (getitem (built self) k1); reflexivity.
Qed.

Lemma resolve_run (category section : string) (self : CfgParser) :
  resolve category section self =
  (lookup (built self) (optionxform category) (optionxform section),
   set_categories self (built self)).
Proof.
  unfold resolve, bind. rewrite parse_run. apply item2_run.
Qed.

Lemma options_run (section category : string) (self : CfgParser) :
  options section (Some category) self =
  (and_then (lookup (built self) (optionxform category) (optionxform section))
            (ConfigParser_options self),
   set_categories self (built self)).
Proof.
  unfold options, bind. rewrite parse_run, item2_run.
  destruct (lookup _ _ _); reflexivity.
Qed.

Lemma has_option_run (section opt category : string) (self : CfgParser) :
  has_option section opt (Some category) self =
  (and_then (lookup (built self) (optionxform category) (optionxform section))
            (fun full => Ok (ConfigParser_has_option self full opt)),
   set_categories self (built self)).
Proof.
  unfold has_option, bind. rewrite parse_run, item2_run.
  destruct (lookup _ _ _); reflexivity.
Qed.

Lemma items_run (section category : string) (self : CfgParser) :
  items section (Some category) self =
  (and_then (lookup (built self) (optionxform category) (optionxform section))
            (ConfigParser_items self),
   set_categories self (built self)).
Proof.
  unfold items, bind. rewrite parse_run, item2_run.
  destruct (lookup _ _ _); reflexivity.
Qed.

Lemma section_run (sec category : string) (self : CfgParser) :
  section sec (Some category) self =
  (and_then (lookup (built self) (optionxform category) sec)
            (fun full => Ok (mkConfigSection full)),
   set_categories self (built self)).
Proof.
  unfold section, bind. rewrite parse_run, item2_run.
  destruct (lookup _ _ _); reflexivity.
Qed.

Lemma sections_run (category : string) (self : CfgParser) :
  sections (Some category) self =
  (and_then (getitem (built self) (optionxform category))
            (fun secs => Ok (OrderedDict.keys secs)),
   set_categories self (built self)).
Proof.
  unfold sections, bind, categories_item. rewrite parse_run. simpl.
  destruct (getitem _ _); reflexivity.
Qed.

Lemma categories_run (self : CfgParser) :
  categories self =
  (Ok (OrderedDict.keys (built self)), set_categories self (built self)).
Proof. unfold categories, bind. rewrite parse_run. reflexivity. Qed.

Lemma has_section_run (sec category : string) (self : CfgParser) :
  has_section sec (Some category) self =
  (Ok (OrderedDict.contains (optionxform category) (built self)
       && OrderedDict.contains sec (under (built self) (optionxform category))),
   set_categories self (built self)).
Proof.
  unfold has_section, bind, categories_item, getitem, ret, under.
  rewrite parse_run. simpl. unfold OrderedDict.contains at 1 3.
  destruct (OrderedDict.get (optionxform category) (built self));
    reflexivity.
Qed.

Lemma get_value_state (section opt : string) raw vars evaluate default self :
  snd (get_value section opt raw vars evaluate default self) = self.
Proof.
  unfold get_value.
  destruct (ConfigParser_get self section opt raw vars) as [v | []];
    try reflexivity.
  destruct (ne_EMPTY default); reflexivity.
Qed.

Lemma get_value_set_categories section opt raw vars evaluate default self idx :
  fst (get_value section opt raw vars evaluate default
                 (set_categories self idx)) =
  fst (get_value section opt raw vars evaluate default self).
Proof.
  unfold get_value.
  change (ConfigParser_get (set_categories self idx) section opt raw vars)
    with (ConfigParser_get self section opt raw vars).
  destruct (ConfigParser_get self section opt raw vars) as [v | []];
    try reflexivity.
  destruct (ne_EMPTY default); reflexivity.
Qed.

(** [get] with a category, by the outcome of the resolution *)
Lemma get_run section opt raw vars category evaluate default self :
  fst (get section opt raw vars (Some category) evaluate default self) =
  match lookup (built self) (optionxform category) (optionxform section) with
  | Ok full =>
      fst (get_value full opt raw vars evaluate default self)
  | Raise (KeyError _) =>
      if ne_EMPTY default then Ok default
      else Raise (raise_class NoSectionError_class)
  | Raise e => Raise e
  end.
Proof.
  unfold get, bind. rewrite parse_run, item2_run.
  destruct (lookup _ _ _) as [full | []]; try reflexivity.
  - apply get_value_set_categories.
  - destruct (ne_EMPTY default); reflexivity.
Qed.

Lemma get_state section opt raw vars category evaluate default self :
  snd (get section opt raw vars (Some category) evaluate default self) =
  set_categories self (built self).
Proof.
  unfold get, bind. rewrite parse_run, item2_run.
  destruct (lookup _ _ _) as [full | []]; try reflexivity.
  - apply get_value_state.
  - destruct (ne_EMPTY default); reflexivity.
Qed.

(** the resolution fails by a [KeyError] only: of the category when it is
    unknown, of the section otherwise *)
Lemma lookup_cases (cats : odict (odict string)) (k1 k2 : string) :
  (exists full, lookup cats k1 k2 = Ok full /\
                OrderedDict.get k2 (under cats k1) = Some full) \/
  (lookup cats k1 k2 = Raise (KeyError k1) /\
   OrderedDict.get k1 cats = None) \/
  (lookup cats k1 k2 = Raise (KeyError k2) /\
   OrderedDict.get k1 cats <> None /\
   OrderedDict.get k2 (under cats k1) = None).
Proof.
  unfold lookup, getitem, under.
  destruct (OrderedDict.get k1 cats) as [secs |]; [| right; left; auto].
  destruct (OrderedDict.get k2 secs) as [full |].
  - left. eauto.
  - right. right. repeat split; congruence.
Qed.

(* ----------------------------------------------------------------------- *)
(** ** Category names are in lower case *)

Lemma is_space_lower_char (c : ascii) :
  PyStr.is_space (PyStr.lower_char c) = PyStr.is_space c.
Proof.
  unfold PyStr.lower_char, PyStr.is_upper, PyStr.is_space. cbv zeta.
  pose proof (nat_ascii_bounded c) as Hc.
  destruct ((65 <=? nat_of_ascii c) && (nat_of_ascii c <=? 90))%nat eqn:Hu;
    [| reflexivity].
  apply andb_true_iff in Hu as [H1 H2]. apply Nat.leb_le in H1, H2.
  rewrite nat_ascii_embedding by lia.
  generalize dependent (nat_of_ascii c). intros m Hm H1 H2. nat_cases.
Qed.

Lemma colon_lower_char (c : ascii) :
  Ascii.eqb (PyStr.lower_char c) ":" = Ascii.eqb c ":".
Proof.
  unfold PyStr.lower_char, PyStr.is_upper. cbv zeta.
  pose proof (nat_ascii_bounded c) as Hc.
  destruct ((65 <=? nat_of_ascii c) && (nat_of_ascii c <=? 90))%nat eqn:Hu;
    [| reflexivity].
  apply andb_true_iff in Hu as [H1 H2]. apply Nat.leb_le in H1, H2.
  rewrite ascii_eqb_of_nat by lia. rewrite ascii_eqb_nat.
  change (nat_of_ascii ":") with 58.
  generalize dependent (nat_of_ascii c). intros m Hm H1 H2. nat_cases.
Qed.

Lemma lower_lstrip (s : string) :
  PyStr.lower (PyStr.lstrip s) = PyStr.lstrip (PyStr.lower s).
Proof.
  induction s as [| c s IH]; simpl; [reflexivity |].
  rewrite is_space_lower_char. destruct (PyStr.is_space c); auto.
Qed.

Lemma lower_rstrip (s : string) :
  PyStr.lower (PyStr.rstrip s) = PyStr.rstrip (PyStr.lower s).
Proof.
  induction s as [| c s IH]; simpl; [reflexivity |].
  rewrite <- IH, is_space_lower_char.
  destruct (PyStr.rstrip s); simpl; [destruct (PyStr.is_space c) |];
    reflexivity.
Qed.

Lemma lower_strip (s : string) :
  PyStr.lower (PyStr.strip s) = PyStr.strip (PyStr.lower s).
Proof. unfold PyStr.strip. now rewrite lower_rstrip, lower_lstrip. Qed.

Lemma lower_before (s : string) :
  PyStr.lower (before ":" s) = before ":" (PyStr.lower s).
Proof.
  induction s as [| c s IH]; simpl; [reflexivity |].
  rewrite colon_lower_char. destruct (Ascii.eqb c ":"); simpl; congruence.
Qed.

Lemma lower_after (s : string) :
  PyStr.lower (after ":" s) = after ":" (PyStr.lower s).
Proof.
  induction s as [| c s IH]; simpl; [reflexivity |].
  rewrite colon_lower_char. destruct (Ascii.eqb c ":"); simpl; congruence.
Qed.

(** the category and the bare name of a section are in lower case *)
Lemma spec_category_name_lower (fullname cat name : string) :
  spec_category_name fullname = Some (cat, name) ->
  optionxform cat = cat /\ optionxform name = name.
Proof.
  unfold spec_category_name, optionxform. cbv zeta.
  destruct (_ =? 1)%nat; [| discriminate].
  intros E. injection E as <- <-.
  rewrite !lower_strip, lower_before, lower_after, !lower_strip, !lower_idem.
  split; reflexivity.
Qed.

(* ----------------------------------------------------------------------- *)
(** ** What the index holds *)

Lemma find_skip {A} (p : A -> bool) (l l' : list A) :
  (forall x, In x l -> p x = false) -> find p (l ++ l') = find p l'.
Proof.
  induction l as [| a l IH]; intros H; simpl; [reflexivity |].
  rewrite (H a) by now left. apply IH. intros x Hx. apply H. now right.
Qed.

Lemma is_entry_true (cat name fullname : string) :
  is_entry cat name fullname = true <->
  spec_category_name fullname = Some (cat, name).
Proof.
  unfold is_entry. destruct (spec_category_name fullname) as [[c n] |].
  - rewrite andb_true_iff, !String.eqb_eq. split.
    + intros [-> ->]. reflexivity.
    + intros E. injection E as -> ->. auto.
  - split; discriminate.
Qed.

Lemma spec_last_Some (names : list string) (cat name full : string) :
  spec_last names cat name = Some full ->
  In full names /\ spec_category_name full = Some (cat, name).
Proof.
  unfold spec_last. intros H. apply find_some in H as [H1 H2].
  split; [now apply in_rev | now apply is_entry_true].
Qed.

Lemma spec_last_exists (names : list string) (cat name full : string) :
  In full names -> spec_category_name full = Some (cat, name) ->
  exists full', spec_last names cat name = Some full'.
Proof.
  intros Hin E. unfold spec_last.
  destruct (find (is_entry cat name) (rev names)) as [f |] eqn:F; [eauto |].
  pose proof (find_none _ _ F full) as N.
  rewrite (proj2 (is_entry_true cat name full) E) in N.
  discriminate N. now apply in_rev in Hin.
Qed.

(** the last of the sections with a given category and bare name *)
Lemma spec_last_decomposed (l1 l2 : list string) (last cat name : string) :
  spec_category_name last = Some (cat, name) ->
  (forall x, In x l2 -> spec_category_name x <> Some (cat, name)) ->
  spec_last (l1 ++ last :: l2) cat name = Some last.
Proof.
  intros E H. unfold spec_last.
  rewrite rev_app_distr. simpl. rewrite <- app_assoc. rewrite find_skip.
  - simpl. now rewrite (proj2 (is_entry_true cat name last) E).
  - intros x Hx. apply in_rev in Hx.
    destruct (is_entry cat name x) eqn:F; [| reflexivity].
    apply is_entry_true in F. now apply H in F.
Qed.

Lemma lookup_under (cats : odict (odict string)) (k1 k2 full : string) :
  lookup cats k1 k2 = Ok full <->
  OrderedDict.get k2 (under cats k1) = Some full.
Proof.
  unfold lookup, getitem, under.
  destruct (OrderedDict.get k1 cats) as [secs |]; simpl.
  - destruct (OrderedDict.get k2 secs); split; congruence.
  - split; discriminate.
Qed.

Lemma built_fresh (self : CfgParser) :
  _categories self = None ->
  built self = build_index (ConfigParser_sections self).
Proof. unfold built. now intros ->. Qed.

(** C5.  On a parser whose index is not built yet, [_parse_categories]
    raises nothing and leaves an index in which: the categories are those of the sections
    whose case-folded, trimmed name has exactly one colon, in the order
    first met; under a category are the trimmed bare names of those
    sections, in the order first met; every entry leads to a section of the
    parser that has this category and bare name, and every such section has
    its category and bare name in the index; a section whose normalised
    name has no colon, or two or more, is the value of no entry. *)
Theorem index_holds_one_colon_sections (self : CfgParser) :
  _categories self = None ->
  exists idx,
    _parse_categories self = (Ok tt, set_categories self idx) /\
    OrderedDict.keys idx = spec_categories (ConfigParser_sections self) /\
    (forall cat,
        OrderedDict.keys (under idx cat)
        = spec_sections (ConfigParser_sections self) cat) /\
    (forall cat name full,
        OrderedDict.get name (under idx cat) = Some full ->
        In full (ConfigParser_sections self) /\
        spec_category_name full = Some (cat, name)) /\
    (forall full cat name,
        In full (ConfigParser_sections self) ->
        spec_category_name full = Some (cat, name) ->
        In cat (OrderedDict.keys idx) /\
        In name (OrderedDict.keys (under idx cat)) /\
        fst (has_section name (Some cat) self) = Ok true) /\
    (forall full,
        In full (ConfigParser_sections self) ->
        PyStr.count ":" (PyStr.strip (PyStr.lower full)) <> 1 ->
        forall cat name, OrderedDict.get name (under idx cat) <> Some full).
Proof.
  intros Fresh. exists (build_index (ConfigParser_sections self)).
  destruct (build_index_spec (ConfigParser_sections self)) as (Ka & Kb & Kc).
  split; [| split; [exact Ka | split; [exact Kb | split; [| split]]]].
  - rewrite parse_run. now rewrite built_fresh.
  - intros cat name full H. rewrite Kc in H. now apply spec_last_Some.
  - intros full cat name Hin E.
    destruct (spec_last_exists _ cat name full Hin E) as (full' & L).
    rewrite <- Kc in L.
    assert (Hn : In name (OrderedDict.keys
                            (under (build_index (ConfigParser_sections self))
                                   cat)))
      by (eapply od_get_In; exact L).
    assert (Hc : In cat (OrderedDict.keys
                           (build_index (ConfigParser_sections self)))).
    { unfold under in L.
      destruct (OrderedDict.get cat _) as [secs |] eqn:G;
        [eapply od_get_In; exact G | discriminate L]. }
    split; [exact Hc | split; [exact Hn |]].
    rewrite has_section_run. simpl. rewrite (built_fresh self Fresh).
    destruct (spec_category_name_lower _ _ _ E) as [-> _].
    rewrite !od_contains_keys.
    apply mem_In in Hn, Hc. now rewrite Hn, Hc.
  - intros full Hin Hcount cat name H. rewrite Kc in H.
    apply spec_last_Some in H as [_ H]. revert H.
    unfold spec_category_name. cbv zeta.
    destruct (Nat.eqb_spec
                (PyStr.count ":" (PyStr.strip (PyStr.lower full))) 1);
      [contradiction | discriminate].
Qed.

(** C10.  When several sections of a parser have the same category and
    bare name, every lookup of that bare name under that category resolves
    to the last of them in the order of the sections, the bare name stands
    in the listing of the category at the place of its first appearance,
    and no lookup through a category resolves to an earlier one. *)
Theorem last_section_wins (self : CfgParser)
        (l1 l2 : list string) (early last cat name : string) :
  _categories self = None ->
  ConfigParser_sections self = l1 ++ last :: l2 ->
  spec_category_name last = Some (cat, name) ->
  (forall x, In x l2 -> spec_category_name x <> Some (cat, name)) ->
  In early l1 -> spec_category_name early = Some (cat, name) ->
  early <> last ->
  (forall category section,
      optionxform category = cat -> optionxform section = name ->
      fst (resolve category section self) = Ok last /\
      fst (options section (Some category) self)
      = ConfigParser_options self last /\
      fst (items section (Some category) self)
      = ConfigParser_items self last /\
      (forall opt raw vars evaluate default,
          fst (get section opt raw vars (Some category) evaluate default self)
          = fst (get_value last opt raw vars evaluate default self))) /\
  fst (resolve cat name self) = Ok last /\
  fst (sections (Some cat) self)
  = Ok (first_appearance
          (flat_map name_of
                    (filter (in_category cat) (ConfigParser_sections self)))) /\
  (forall category section,
      fst (resolve category section self) <> Ok early).
Proof.
  intros Fresh Names Elast Hl2 Hearly Eearly Ne.
  destruct (build_index_spec (ConfigParser_sections self)) as (Ka & Kb & Kc).
  assert (L : spec_last (ConfigParser_sections self) cat name = Some last)
    by (rewrite Names; now apply spec_last_decomposed).
  assert (R : lookup (built self) cat name = Ok last)
    by (apply lookup_under; rewrite (built_fresh self Fresh), Kc; exact L).
  destruct (spec_category_name_lower _ _ _ Elast) as [Lc Ln].
  split; [| split; [| split]].
  - intros category section Hc Hs.
    rewrite resolve_run, options_run, items_run.
    unfold fst at 1 2 3. rewrite Hc, Hs, R.
    split; [reflexivity | split; [reflexivity | split; [reflexivity |]]].
    intros opt raw vars evaluate default.
    rewrite get_run, Hc, Hs, R. reflexivity.
  - rewrite resolve_run. simpl. now rewrite Lc, Ln.
  - rewrite sections_run. simpl. rewrite Lc.
    assert (G : OrderedDict.get cat (built self) <> None).
    { intros G. unfold lookup, getitem in R. now rewrite G in R. }
    unfold getitem.
    destruct (OrderedDict.get cat (built self)) as [secs |] eqn:G';
      [| contradiction].
    simpl. f_equal.
    specialize (Kb cat). rewrite <- (built_fresh self Fresh) in Kb.
    unfold under in Kb. rewrite G' in Kb. exact Kb.
  - intros category section H. rewrite resolve_run in H. simpl in H.
    apply lookup_under in H.
    rewrite (built_fresh self Fresh), Kc in H.
    pose proof (spec_last_Some _ _ _ _ H) as [_ E].
    rewrite Eearly in E. injection E as Hc Hs.
    rewrite <- Hc, <- Hs, L in H. injection H as H. now apply Ne.
Qed.

(* ----------------------------------------------------------------------- *)
(** ** Lookup through a category *)

Lemma lower_char_nat (c : ascii) :
  PyStr.lower_char c =
  ascii_of_nat (if ((65 <=? nat_of_ascii c) && (nat_of_ascii c <=? 90))%nat
                then nat_of_ascii c + 32 else nat_of_ascii c).
Proof.
  unfold PyStr.lower_char, PyStr.is_upper. cbv zeta.
  destruct ((65 <=? nat_of_ascii c) && (nat_of_ascii c <=? 90))%nat;
    [reflexivity | now rewrite ascii_nat_embedding].
Qed.

Lemma same_letter_lower_char (c d : ascii) :
  same_letter c d = true -> PyStr.lower_char c = PyStr.lower_char d.
Proof.
  rewrite !lower_char_nat. unfold same_letter. cbv zeta.
  generalize (nat_of_ascii c), (nat_of_ascii d). intros m n H.
  f_equal. revert H.
  destruct (Nat.eqb_spec m n) as [-> | N]; [reflexivity |].
  destruct (Nat.leb_spec 65 m), (Nat.leb_spec m 90),
    (Nat.leb_spec 65 n), (Nat.leb_spec n 90),
    (Nat.eqb_spec n (m + 32)), (Nat.eqb_spec m (n + 32)); simpl;
    try discriminate; intros _; lia.
Qed.

Lemma same_nocase_lower_eq (s t : string) :
  same_nocase s t = true -> PyStr.lower s = PyStr.lower t.
Proof.
  revert t. induction s as [| c s IH]; intros [| d t]; simpl;
    try discriminate; [reflexivity |].
  intros H. apply andb_true_iff in H as [H1 H2].
  now rewrite (same_letter_lower_char c d H1), (IH t H2).
Qed.

(** C4, as the code has it.  The category and the section given to [get],
    [options], [has_option] and [items] are case-folded, and not trimmed,
    before the index is consulted: two spellings of the arguments that
    differ in capitalisation only give the same outcome. *)
Theorem lookup_ignores_case (self : CfgParser) (c1 c2 s1 s2 : string) :
  same_nocase c1 c2 = true -> same_nocase s1 s2 = true ->
  resolve c1 s1 self = resolve c2 s2 self /\
  options s1 (Some c1) self = options s2 (Some c2) self /\
  (forall opt,
      has_option s1 opt (Some c1) self = has_option s2 opt (Some c2) self) /\
  items s1 (Some c1) self = items s2 (Some c2) self /\
  (forall opt raw vars evaluate default,
      get s1 opt raw vars (Some c1) evaluate default self
      = get s2 opt raw vars (Some c2) evaluate default self).
Proof.
  intros Hc Hs.
  apply same_nocase_lower_eq in Hc, Hs.
  fold (optionxform c1) (optionxform c2) in Hc.
  fold (optionxform s1) (optionxform s2) in Hs.
  unfold resolve, options, has_option, items, get.
  rewrite Hc, Hs. repeat split.
Qed.

(** [get]: the option is absent from an existing section *)
Lemma get_option_absent (self : CfgParser) section opt raw vars evaluate
      default o s :
  ConfigParser_get self section opt raw vars = Raise (NoOptionError o s) ->
  fst (get section opt raw vars None evaluate default self) =
  if ne_EMPTY default then Ok default else Raise (NoOptionError o s).
Proof.
  intros H. unfold get, get_value. rewrite H.
  destruct (ne_EMPTY default); reflexivity.
Qed.

(** [get]: the category or the section under it is unknown *)
Lemma get_resolution_fails (self : CfgParser) section opt raw vars category
      evaluate default e :
  fst (resolve category section self) = Raise e ->
  fst (get section opt raw vars (Some category) evaluate default self) =
  if ne_EMPTY default then Ok default else Raise TypeError.
Proof.
  rewrite resolve_run, get_run. simpl fst.
  destruct (lookup_cases (built self) (optionxform category)
                         (optionxform section))
    as [(full & E & _) | [[E _] | [E _]]]; rewrite E; try discriminate;
    intros _; reflexivity.
Qed.

(** [getlist]: the option is absent from an existing section *)
Lemma getlist_option_absent (self : CfgParser) section opt evaluate default
      o s :
  ConfigParser_get self section opt false OrderedDict.empty
  = Raise (NoOptionError o s) ->
  fst (getlist section opt evaluate None default self) =
  if ne_EMPTY default then Ok default else Raise (NoOptionError o s).
Proof.
  intros H. unfold getlist, get, get_value. rewrite H. simpl.
  destruct (ne_EMPTY default); reflexivity.
Qed.

(** [getlist]: the category or the section under it is unknown; the
    default is not looked at *)
Lemma getlist_resolution_fails (self : CfgParser) section opt evaluate
      category default e :
  fst (resolve category section self) = Raise e ->
  fst (getlist section opt evaluate (Some category) default self)
  = Raise TypeError.
Proof.
  intros H. unfold getlist.
  pose proof (get_resolution_fails self section opt false OrderedDict.empty
                category false _EMPTY e H) as G.
  destruct (get section opt false OrderedDict.empty (Some category) false
                _EMPTY self) as [r st].
  cbn [fst ne_EMPTY] in G. subst r. reflexivity.
Qed.

(** C7, as the code has it.  When the category is unknown, or the section
    is unknown under it, [sections], [section], [options], [has_option] and
    [items] let the [KeyError] of the index through, [has_section] answers
    false, and [get] returns the default when one is given. *)
Theorem category_miss_is_KeyError (self : CfgParser)
        (category sec : string) :
  (OrderedDict.get (optionxform category) (built self) = None ->
   fst (sections (Some category) self)
     = Raise (KeyError (optionxform category)) /\
   fst (section sec (Some category) self)
     = Raise (KeyError (optionxform category)) /\
   fst (options sec (Some category) self)
     = Raise (KeyError (optionxform category)) /\
   (forall opt, fst (has_option sec opt (Some category) self)
                = Raise (KeyError (optionxform category))) /\
   fst (items sec (Some category) self)
     = Raise (KeyError (optionxform category)) /\
   fst (has_section sec (Some category) self) = Ok false /\
   (forall opt raw vars evaluate default,
       ne_EMPTY default = true ->
       fst (get sec opt raw vars (Some category) evaluate default self)
       = Ok default)) /\
  (forall secs,
      OrderedDict.get (optionxform category) (built self) = Some secs ->
      (OrderedDict.get (optionxform sec) secs = None ->
       fst (options sec (Some category) self)
         = Raise (KeyError (optionxform sec)) /\
       (forall opt, fst (has_option sec opt (Some category) self)
                    = Raise (KeyError (optionxform sec))) /\
       fst (items sec (Some category) self)
         = Raise (KeyError (optionxform sec)) /\
       (forall opt raw vars evaluate default,
           ne_EMPTY default = true ->
           fst (get sec opt raw vars (Some category) evaluate default self)
           = Ok default)) /\
      (OrderedDict.get sec secs = None ->
       fst (section sec (Some category) self) = Raise (KeyError sec) /\
       fst (has_section sec (Some category) self) = Ok false)).
Proof.
  assert (Fin : forall A (r r' : result A) (st : CfgParser),
             r = r' -> fst (r, st) = r') by (intros; assumption).
  split.
  - intros G.
    assert (L : forall k2, lookup (built self) (optionxform category) k2
                           = Raise (KeyError (optionxform category)))
      by (intros; unfold lookup, getitem; now rewrite G).
    repeat apply conj; intros;
      rewrite ?sections_run, ?section_run, ?options_run, ?has_option_run,
        ?items_run, ?has_section_run, ?get_run, ?L;
      try reflexivity.
    + apply Fin. unfold getitem. now rewrite G.
    + apply Fin. unfold OrderedDict.contains. now rewrite G.
    + now rewrite H.
  - intros secs G. split; intros N.
    + assert (L : lookup (built self) (optionxform category) (optionxform sec)
                  = Raise (KeyError (optionxform sec)))
        by (unfold lookup, getitem; now rewrite G, N).
      repeat apply conj; intros;
        rewrite ?options_run, ?has_option_run, ?items_run, ?get_run, ?L;
        try reflexivity.
      now rewrite H.
    + assert (L : lookup (built self) (optionxform category) sec
                  = Raise (KeyError sec))
        by (unfold lookup, getitem; now rewrite G, N).
      split.
      * now rewrite section_run, L.
      * rewrite has_section_run. apply Fin.
        unfold under, OrderedDict.contains. rewrite G, N. reflexivity.
Qed.

(* ----------------------------------------------------------------------- *)
(** ** The index is built once *)

Lemma built_cached (self : CfgParser) (idx : odict (odict string)) :
  _categories self = Some idx -> built self = idx.
Proof. unfold built. now intros ->. Qed.

(** a call leaves the parser as it is or with its index set *)
Lemma after_call_categories (c : call) (self : CfgParser) :
  _categories (after_call c self) = _categories self \/
  _categories (after_call c self) = Some (built self).
Proof.
  destruct c as [| cat | s cat | s cat | s o cat | s cat
                 | s o raw vars cat ev d | s o ev cat d | s o cat d
                 | s cat | d s]; simpl.
  - rewrite categories_run. now right.
  - destruct cat; [rewrite sections_run; now right | now left].
  - destruct cat; [rewrite has_section_run; now right | now left].
  - destruct cat; [rewrite options_run; now right | now left].
  - destruct cat; [rewrite has_option_run; now right | now left].
  - destruct cat; [rewrite items_run; now right | now left].
  - destruct cat; [rewrite get_state; now right |].
    left. unfold get. now rewrite get_value_state.
  - unfold getlist. destruct cat as [cat |].
    + pose proof (get_state s o false OrderedDict.empty cat false _EMPTY self)
        as G.
      destruct (get s o false OrderedDict.empty (Some cat) false _EMPTY self)
        as [[[] | []] st]; simpl in G; subst st;
        try (destruct (ne_EMPTY d)); now right.
    + pose proof (get_value_state s o false OrderedDict.empty false _EMPTY
                                  self) as G.
      unfold get.
      destruct (get_value s o false OrderedDict.empty false _EMPTY self)
        as [[[] | []] st]; simpl in G; subst st;
        try (destruct (ne_EMPTY d)); now left.
  - unfold geteval. destruct cat; [rewrite get_state; now right |].
    left. unfold get. now rewrite get_value_state.
  - destruct cat; [rewrite section_run; now right | now left].
  - now left.
Qed.

Lemma after_call_built (c : call) (self : CfgParser)
      (idx : odict (odict string)) :
  _categories self = Some idx -> _categories (after_call c self) = Some idx.
Proof.
  intros H. destruct (after_call_categories c self) as [E | E]; rewrite E.
  - exact H.
  - now rewrite (built_cached self idx H).
Qed.

(** C8.  The index is built when it is missing and only then: a second
    [_parse_categories] changes nothing; [categories] called twice gives
    the same list, also when the sections were changed in between; once the
    index is there, no sequence of calls, changes of the sections included,
    replaces it or takes it away; and a call on a parser without index
    leaves it without one or with the index of its sections. *)
Theorem index_built_once :
  (forall self,
      snd (_parse_categories (snd (_parse_categories self)))
      = snd (_parse_categories self)) /\
  (forall self,
      fst (categories (snd (categories self))) = fst (categories self)) /\
  (forall self d s,
      fst (categories (after_call (Inherited_update d s)
                                  (snd (categories self))))
      = fst (categories self)) /\
  (forall self idx cs,
      _categories self = Some idx ->
      _categories (after_calls cs self) = Some idx) /\
  (forall self c,
      _categories self = None ->
      _categories (after_call c self) = None \/
      _categories (after_call c self)
      = Some (build_index (ConfigParser_sections self))).
Proof.
  split; [| split; [| split; [| split]]].
  - intros self. now rewrite !parse_run.
  - intros self. now rewrite !categories_run.
  - intros self d s. now rewrite !categories_run.
  - intros self idx cs. revert self.
    induction cs as [| c cs IH]; intros self H; [exact H |].
    simpl. apply IH. now apply after_call_built.
  - intros self c H.
    destruct (after_call_categories c self) as [E | E]; rewrite E.
    + now left.
    + right. now rewrite (built_fresh self H).
Qed.

(* ----------------------------------------------------------------------- *)
(** ** What a call leaves behind *)

Lemma getlist_fst section opt evaluate category default self :
  fst (getlist section opt evaluate category default self) =
  match fst (get section opt false OrderedDict.empty category false _EMPTY
                 self) with
  | Raise (NoOptionError o s) =>
      if ne_EMPTY default then Ok default else Raise (NoOptionError o s)
  | Raise e => Raise e
  | Ok (PStr val) => Ok (split_list val evaluate)
  | Ok _ => Raise TypeError
  end.
Proof.
  unfold getlist.
  destruct (get section opt false OrderedDict.empty category false _EMPTY self)
    as [[[] | []] st]; try reflexivity.
  cbn [fst]. destruct (ne_EMPTY default); reflexivity.
Qed.

Lemma getlist_snd section opt evaluate category default self :
  snd (getlist section opt evaluate category default self) =
  snd (get section opt false OrderedDict.empty category false _EMPTY self).
Proof.
  unfold getlist.
  destruct (get section opt false OrderedDict.empty category false _EMPTY self)
    as [[[] | []] st]; try reflexivity.
  cbn [snd]. destruct (ne_EMPTY default); reflexivity.
Qed.

Lemma get_snd section opt raw vars category evaluate default self :
  snd (get section opt raw vars category evaluate default self) =
  match category with
  | Some _ => set_categories self (built self)
  | None => self
  end.
Proof.
  destruct category; [apply get_state | apply get_value_state].
Qed.

(** a reading call leaves the parser as it was, or as it was with the index
    it had to build *)
Lemma after_call_state (c : call) (self : CfgParser) :
  is_accessor c = true ->
  after_call c self = self \/
  after_call c self = set_categories self (built self).
Proof.
  destruct c as [| cat | s cat | s cat | s o cat | s cat
                 | s o raw vars cat ev d | s o ev cat d | s o cat d
                 | s cat | d s]; simpl; intros A; try discriminate.
  - rewrite categories_run. now right.
  - destruct cat; [rewrite sections_run; now right | now left].
  - destruct cat; [rewrite has_section_run; now right | now left].
  - destruct cat; [rewrite options_run; now right | now left].
  - destruct cat; [rewrite has_option_run; now right | now left].
  - destruct cat; [rewrite items_run; now right | now left].
  - rewrite get_snd. destruct cat; [now right | now left].
  - rewrite getlist_snd, get_snd. destruct cat; [now right | now left].
  - unfold geteval. rewrite get_snd. destruct cat; [now right | now left].
  - destruct cat; [rewrite section_run; now right | now left].
Qed.

Lemma after_calls_state (cs : list call) (self : CfgParser) :
  forallb is_accessor cs = true ->
  after_calls cs self = self \/
  after_calls cs self = set_categories self (built self).
Proof.
  revert self. induction cs as [| c cs IH]; intros self A; [now left |].
  simpl in A. apply andb_true_iff in A as [Ac Acs].
  change (after_calls (c :: cs) self)
    with (after_calls cs (after_call c self)).
  destruct (after_call_state c self Ac) as [E | E]; rewrite E.
  - now apply IH.
  - destruct (IH (set_categories self (built self)) Acs) as [F | F];
      rewrite F; now right.
Qed.

(** the answers do not depend on the index being cached already *)
Lemma answers_with_index (self : CfgParser) :
  let self' := set_categories self (built self) in
  fst (categories self') = fst (categories self) /\
  (forall category, fst (sections category self')
                    = fst (sections category self)) /\
  (forall sec category, fst (has_section sec category self')
                        = fst (has_section sec category self)) /\
  (forall sec category, fst (options sec category self')
                        = fst (options sec category self)) /\
  (forall sec opt category, fst (has_option sec opt category self')
                            = fst (has_option sec opt category self)) /\
  (forall sec category, fst (items sec category self')
                        = fst (items sec category self)) /\
  (forall sec opt raw vars category evaluate default,
      fst (get sec opt raw vars category evaluate default self')
      = fst (get sec opt raw vars category evaluate default self)) /\
  (forall sec opt evaluate category default,
      fst (getlist sec opt evaluate category default self')
      = fst (getlist sec opt evaluate category default self)) /\
  (forall sec opt category default,
      fst (geteval sec opt category default self')
      = fst (geteval sec opt category default self)) /\
  (forall sec category, fst (section sec category self')
                        = fst (section sec category self)).
Proof.
  intros self'.
  assert (G : forall sec opt raw vars category evaluate default,
             fst (get sec opt raw vars category evaluate default self')
             = fst (get sec opt raw vars category evaluate default self)).
  { intros sec opt raw vars [category |] evaluate default.
    - rewrite !get_run. change (built self') with (built self).
      destruct (lookup _ _ _) as [full | e]; [| reflexivity].
      apply get_value_set_categories.
    - apply get_value_set_categories. }
  repeat apply conj.
  - now rewrite !categories_run.
  - intros [category |]; [now rewrite !sections_run | reflexivity].
  - intros sec [category |]; [now rewrite !has_section_run | reflexivity].
  - intros sec [category |]; [now rewrite !options_run | reflexivity].
  - intros sec opt [category |]; [now rewrite !has_option_run | reflexivity].
  - intros sec [category |]; [now rewrite !items_run | reflexivity].
  - exact G.
  - intros sec opt evaluate category default.
    now rewrite !getlist_fst, G.
  - intros sec opt category default. apply G.
  - intros sec [category |]; [now rewrite !section_run | reflexivity].
Qed.

(** X1.  Reading calls leave the raw storage alone and answer as if they
    had not been made: after any sequence of them the defaults and the
    sections of the parser are the same, and every accessor returns what it
    returns on the parser before the calls. *)
Theorem accessors_read_only (cs : list call) (self : CfgParser) :
  forallb is_accessor cs = true ->
  _defaults (after_calls cs self) = _defaults self /\
  _sections (after_calls cs self) = _sections self /\
  fst (categories (after_calls cs self)) = fst (categories self) /\
  (forall category, fst (sections category (after_calls cs self))
                    = fst (sections category self)) /\
  (forall sec category, fst (has_section sec category (after_calls cs self))
                        = fst (has_section sec category self)) /\
  (forall sec category, fst (options sec category (after_calls cs self))
                        = fst (options sec category self)) /\
  (forall sec opt category,
      fst (has_option sec opt category (after_calls cs self))
      = fst (has_option sec opt category self)) /\
  (forall sec category, fst (items sec category (after_calls cs self))
                        = fst (items sec category self)) /\
  (forall sec opt raw vars category evaluate default,
      fst (get sec opt raw vars category evaluate default
               (after_calls cs self))
      = fst (get sec opt raw vars category evaluate default self)) /\
  (forall sec opt evaluate category default,
      fst (getlist sec opt evaluate category default (after_calls cs self))
      = fst (getlist sec opt evaluate category default self)) /\
  (forall sec opt category default,
      fst (geteval sec opt category default (after_calls cs self))
      = fst (geteval sec opt category default self)) /\
  (forall sec category, fst (section sec category (after_calls cs self))
                        = fst (section sec category self)).
Proof.
  intros A. destruct (after_calls_state cs self A) as [E | E]; rewrite E.
  - repeat apply conj; reflexivity.
  - split; [reflexivity | split; [reflexivity |]].
    apply (answers_with_index self).
Qed.

(** X2.  The index is built by need: a reading call made without a
    category leaves the parser exactly as it was, the missing index
    included. *)
Theorem no_category_no_index (c : call) (self : CfgParser) :
  without_category c = true -> after_call c self = self.
Proof.
  destruct c as [| cat | s cat | s cat | s o cat | s cat
                 | s o raw vars cat ev d | s o ev cat d | s o cat d
                 | s cat | d s]; simpl; try discriminate;
    destruct cat; try discriminate; intros _; try reflexivity.
  - apply get_value_state.
  - rewrite getlist_snd. apply get_value_state.
  - apply get_value_state.
Qed.

(* ----------------------------------------------------------------------- *)
(** ** Listings and lookups *)

Lemma od_In_get {V} (k : string) (d : odict V) :
  In k (OrderedDict.keys d) -> exists v, OrderedDict.get k d = Some v.
Proof.
  intros H. apply mem_In in H. rewrite <- od_contains_keys in H.
  unfold OrderedDict.contains in H.
  destruct (OrderedDict.get k d) as [v |]; [eauto | discriminate].
Qed.

Lemma od_contains_true {V} (k : string) (d : odict V) :
  OrderedDict.contains k d = true <-> exists v, OrderedDict.get k d = Some v.
Proof.
  unfold OrderedDict.contains. destruct (OrderedDict.get k d) as [v |].
  - split; eauto.
  - split; [discriminate | intros [v H]; discriminate].
Qed.

(** the test of [has_section] succeeds when the subscription does *)
Lemma has_section_test (cats : odict (odict string)) (k1 k2 : string) :
  OrderedDict.contains k1 cats && OrderedDict.contains k2 (under cats k1)
  = true <->
  exists full, lookup cats k1 k2 = Ok full.
Proof.
  unfold lookup, getitem, under, OrderedDict.contains.
  destruct (OrderedDict.get k1 cats) as [secs |]; simpl.
  - destruct (OrderedDict.get k2 secs) as [full |].
    + split; eauto.
    + split; [discriminate | intros [full H]; discriminate].
  - split; [discriminate | intros [full H]; discriminate].
Qed.

Lemma first_appearance_In (x : string) (l : list string) :
  In x (first_appearance l) <-> In x l.
Proof. now rewrite <- !mem_In, mem_first_appearance. Qed.

Lemma first_appearance_NoDup (l : list string) : NoDup (first_appearance l).
Proof.
  induction l as [| x l IH]; simpl; constructor.
  - intros H. apply filter_In in H as [_ H].
    now rewrite String.eqb_refl in H.
  - now apply NoDup_filter.
Qed.

Lemma spec_sections_In (names : list string) (cat name : string) :
  In name (spec_sections names cat) ->
  exists full, In full names /\ spec_category_name full = Some (cat, name).
Proof.
  unfold spec_sections. rewrite first_appearance_In, in_flat_map.
  intros (full & Hf & Hn). apply filter_In in Hf as [Hin Hc].
  exists full. split; [assumption |].
  unfold in_category in Hc. unfold name_of in Hn.
  destruct (spec_category_name full) as [[c n] |]; [| discriminate].
  apply String.eqb_eq in Hc. destruct Hn as [<- | []]. now subst.
Qed.

Lemma spec_categories_In (names : list string) (cat : string) :
  In cat (spec_categories names) ->
  exists full name,
    In full names /\ spec_category_name full = Some (cat, name).
Proof.
  unfold spec_categories. rewrite first_appearance_In, in_flat_map.
  intros (full & Hin & Hc). exists full. unfold cat_of in Hc.
  destruct (spec_category_name full) as [[c n] |]; [| contradiction].
  destruct Hc as [<- | []]. eauto.
Qed.

Lemma spec_category_name_trimmed (fullname cat name : string) :
  spec_category_name fullname = Some (cat, name) ->
  PyStr.strip cat = cat /\ PyStr.strip name = name.
Proof.
  unfold spec_category_name. cbv zeta.
  destruct (_ =? 1)%nat; [| discriminate].
  intros E. injection E as <- <-. split; apply strip_idem.
Qed.

(** an entry of a fresh index, read back *)
Lemma fresh_entry (self : CfgParser) (k1 k2 full : string) :
  _categories self = None ->
  lookup (built self) k1 k2 = Ok full ->
  In full (ConfigParser_sections self) /\
  spec_category_name full = Some (k1, k2).
Proof.
  intros Fresh H. apply lookup_under in H.
  rewrite (built_fresh self Fresh) in H.
  destruct (build_index_spec (ConfigParser_sections self)) as (_ & _ & Kc).
  rewrite Kc in H. now apply spec_last_Some.
Qed.

(** X3.  [has_section] with a category answers true exactly when
    [section] with the same arguments gives a bound view, whatever the
    parser. *)
Theorem has_section_iff_section (self : CfgParser) (sec category : string) :
  fst (has_section sec (Some category) self) = Ok true <->
  exists cs, fst (section sec (Some category) self) = Ok cs.
Proof.
  rewrite has_section_run, section_run. cbn [fst].
  split.
  - intros H. injection H as H.
    apply has_section_test in H as [full H]. rewrite H. simpl. eauto.
  - intros [cs H]. f_equal. apply has_section_test.
    destruct (lookup _ _ _) as [full |]; [eauto | discriminate].
Qed.

(** X4.  The listings agree with the tests: a name is in the listing of a
    category exactly when [has_section] answers true for it, and a category
    has a listing exactly when its case-folded name is among the
    categories. *)
Theorem listing_matches_has_section (self : CfgParser) (category : string) :
  (forall l,
      fst (sections (Some category) self) = Ok l ->
      forall sec,
        In sec l <-> fst (has_section sec (Some category) self) = Ok true) /\
  ((exists l, fst (sections (Some category) self) = Ok l) <->
   (exists cats, fst (categories self) = Ok cats /\
                 In (optionxform category) cats)).
Proof.
  rewrite sections_run, categories_run. cbn [fst]. split.
  - intros l H sec. rewrite has_section_run. cbn [fst].
    unfold getitem, under, OrderedDict.contains in *.
    destruct (OrderedDict.get (optionxform category) (built self))
      as [secs |]; [| discriminate].
    simpl in H. injection H as <-. split.
    + intros Hin. apply od_In_get in Hin as [v ->]. reflexivity.
    + intros E. injection E as E.
      destruct (OrderedDict.get sec secs) as [v |] eqn:G; [| discriminate].
      eapply od_get_In. exact G.
  - unfold getitem. split.
    + intros [l H]. exists (OrderedDict.keys (built self)).
      split; [reflexivity |].
      destruct (OrderedDict.get (optionxform category) (built self))
        as [secs |] eqn:G; [| discriminate].
      eapply od_get_In. exact G.
    + intros (cats & E & Hin). injection E as <-.
      apply od_In_get in Hin as [secs ->]. simpl. eauto.
Qed.

(** X5.  On a parser whose index is built from its sections, the listing
    of the categories and the listing of a category name nothing twice, and
    every name in them is in lower case and trimmed. *)
Theorem listings_are_clean (self : CfgParser) :
  _categories self = None ->
  (forall cats,
      fst (categories self) = Ok cats ->
      NoDup cats /\
      forall c, In c cats -> optionxform c = c /\ PyStr.strip c = c) /\
  (forall category l,
      fst (sections (Some category) self) = Ok l ->
      NoDup l /\
      forall n, In n l -> optionxform n = n /\ PyStr.strip n = n).
Proof.
  intros Fresh.
  destruct (build_index_spec (ConfigParser_sections self)) as (Ka & Kb & _).
  split.
  - intros cats. rewrite categories_run, (built_fresh self Fresh), Ka.
    cbn [fst]. intros E. injection E as <-.
    split; [apply first_appearance_NoDup |].
    intros c Hc. apply spec_categories_In in Hc as (full & name & _ & E).
    split; [exact (proj1 (spec_category_name_lower _ _ _ E)) |].
    exact (proj1 (spec_category_name_trimmed _ _ _ E)).
  - intros category l. rewrite sections_run, (built_fresh self Fresh).
    cbn [fst]. unfold getitem.
    specialize (Kb (optionxform category)). unfold under in Kb.
    destruct (OrderedDict.get (optionxform category) _) as [secs |];
      [| discriminate].
    simpl. intros E. injection E as <-. rewrite Kb.
    split; [apply first_appearance_NoDup |].
    intros n Hn. apply spec_sections_In in Hn as (full & _ & E).
    split; [exact (proj2 (spec_category_name_lower _ _ _ E)) |].
    exact (proj2 (spec_category_name_trimmed _ _ _ E)).
Qed.

Lemma sections_contains (self : CfgParser) (full : string) :
  In full (ConfigParser_sections self) ->
  ConfigParser_has_section self full = true /\
  exists opts, ConfigParser_options self full = Ok opts.
Proof.
  unfold ConfigParser_sections, ConfigParser_has_section, ConfigParser_options.
  intros H. apply od_In_get in H as [sec G].
  unfold OrderedDict.contains. rewrite G. eauto.
Qed.

(** X6.  On a parser whose index is built from its sections, a lookup
    through a category that resolves gives a section of the parser, whose
    category and bare name are the case-folded arguments: [options] answers,
    and [get] without interpolation never ends in [NoSectionError]. *)
Theorem resolved_section_exists (self : CfgParser)
        (category sec full : string) :
  _categories self = None ->
  fst (resolve category sec self) = Ok full ->
  In full (ConfigParser_sections self) /\
  ConfigParser_has_section self full = true /\
  spec_category_name full = Some (optionxform category, optionxform sec) /\
  (exists opts, fst (options sec (Some category) self) = Ok opts) /\
  (forall opt vars evaluate default s,
      fst (get sec opt true vars (Some category) evaluate default self)
      <> Raise (NoSectionError s)).
Proof.
  intros Fresh. rewrite resolve_run. cbn [fst]. intros R.
  destruct (fresh_entry self _ _ _ Fresh R) as [Hin E].
  destruct (sections_contains self full Hin) as [Hs [opts Ho]].
  repeat apply conj; try assumption.
  - exists opts. rewrite options_run, R. exact Ho.
  - intros opt vars evaluate default s. rewrite get_run, R.
    unfold get_value, ConfigParser_get.
    unfold ConfigParser_sections in Hin.
    apply od_In_get in Hin as [d ->].
    destruct (OrderedDict.get _ _); cbn [fst]; [discriminate |].
    destruct (ne_EMPTY default); discriminate.
Qed.

(** X7.  On a parser whose index is built from its sections, every name
    listed under a category can be looked up under it: [has_section]
    answers true, the name resolves to a section of the parser and
    [options] answers. *)
Theorem listed_names_resolve (self : CfgParser) (category name : string)
        (l : list string) :
  _categories self = None ->
  fst (sections (Some category) self) = Ok l -> In name l ->
  fst (has_section name (Some category) self) = Ok true /\
  exists full,
    fst (resolve category name self) = Ok full /\
    In full (ConfigParser_sections self) /\
    exists opts, fst (options name (Some category) self) = Ok opts.
Proof.
  intros Fresh L Hin.
  pose proof (proj1 (listing_matches_has_section self category) l L name)
    as [T _].
  specialize (T Hin). split; [exact T |].
  apply has_section_iff_section in T as [cs T].
  rewrite section_run in T. cbn [fst] in T.
  destruct (lookup (built self) (optionxform category) name)
    as [full |] eqn:R; [| discriminate].
  destruct (fresh_entry self _ _ _ Fresh R) as [Hf E].
  destruct (spec_category_name_lower _ _ _ E) as [_ Ln].
  destruct (sections_contains self full Hf) as [_ [opts Ho]].
  exists full. rewrite resolve_run, options_run, Ln, R. cbn [fst].
  split; [reflexivity | split; [assumption |]].
  exists opts. exact Ho.
Qed.

(** X8.  On a parser whose index is built from its sections, [has_section]
    and [section] with a category never find a section whose name is given
    with a capital letter: they test the name as given, and the names of the
    index are in lower case. *)
Theorem capital_letter_not_found (self : CfgParser) (sec category : string) :
  _categories self = None ->
  optionxform sec <> sec ->
  fst (has_section sec (Some category) self) = Ok false /\
  exists k, fst (section sec (Some category) self) = Raise (KeyError k).
Proof.
  intros Fresh N.
  assert (L : forall full,
             lookup (built self) (optionxform category) sec <> Ok full).
  { intros full R. destruct (fresh_entry self _ _ _ Fresh R) as [_ E].
    apply spec_category_name_lower in E as [_ E]. contradiction. }
  split.
  - rewrite has_section_run. cbn [fst]. f_equal.
    apply not_true_is_false. intros T.
    apply has_section_test in T as [full T]. now apply L in T.
  - rewrite section_run. cbn [fst].
    destruct (lookup_cases (built self) (optionxform category) sec)
      as [(full & E & _) | [[E _] | [E _]]]; rewrite E.
    + now apply L in E.
    + simpl. eauto.
    + simpl. eauto.
Qed.

(* ----------------------------------------------------------------------- *)
(** ** The bound view, defaults and list values *)

(** X9.  A bound view obtained through a category for a section name given
    in lower case answers as the accessors of the parser called with the
    same section and category. *)
Theorem bound_view_agrees (self self' : CfgParser) (sec category : string)
        (cs : ConfigSection) :
  optionxform sec = sec ->
  section sec (Some category) self = (Ok cs, self') ->
  fst (ConfigSection_options cs self')
  = fst (options sec (Some category) self) /\
  (forall opt, fst (ConfigSection_has_option cs opt self')
               = fst (has_option sec opt (Some category) self)) /\
  fst (ConfigSection_items cs self') = fst (items sec (Some category) self) /\
  (forall opt raw vars evaluate default,
      fst (ConfigSection_get cs opt raw vars evaluate default self')
      = fst (get sec opt raw vars (Some category) evaluate default self)) /\
  (forall opt evaluate default,
      fst (ConfigSection_getlist cs opt evaluate default self')
      = fst (getlist sec opt evaluate (Some category) default self)) /\
  (forall opt default,
      fst (ConfigSection_geteval cs opt default self')
      = fst (geteval sec opt (Some category) default self)).
Proof.
  intros Low. rewrite section_run.
  destruct (lookup (built self) (optionxform category) sec)
    as [full |] eqn:R; [| discriminate].
  cbn [and_then]. intros E. injection E as <- <-.
  assert (G : forall opt raw vars evaluate default,
             fst (ConfigSection_get (mkConfigSection full) opt raw vars
                    evaluate default (set_categories self (built self)))
             = fst (get sec opt raw vars (Some category) evaluate default
                        self)).
  { intros. rewrite get_run, Low, R.
    apply get_value_set_categories. }
  unfold ConfigSection_options, ConfigSection_has_option, ConfigSection_items,
    ConfigSection_getlist, ConfigSection_geteval, geteval.
  rewrite options_run, items_run, Low, R.
  repeat apply conj; try reflexivity.
  - intros opt. now rewrite has_option_run, Low, R.
  - exact G.
  - intros opt evaluate default. rewrite !getlist_fst.
    now rewrite <- G.
  - intros opt default. apply G.
Qed.

(** X10.  Asked without category for a section the parser does not have,
    [get], [geteval] and [getlist] end in [NoSectionError] whatever the
    default; the view bound to such a section is made without complaint and
    fails the same way when used. *)
Theorem missing_section_ignores_default (self : CfgParser)
        (sec : string) :
  OrderedDict.get sec (_sections self) = None -> sec <> DEFAULTSECT ->
  (forall opt raw vars evaluate default,
      fst (get sec opt raw vars None evaluate default self)
      = Raise (NoSectionError sec)) /\
  (forall opt default,
      fst (geteval sec opt None default self) = Raise (NoSectionError sec)) /\
  (forall opt evaluate default,
      fst (getlist sec opt evaluate None default self)
      = Raise (NoSectionError sec)) /\
  section sec None self = (Ok (mkConfigSection sec), self) /\
  fst (ConfigSection_options (mkConfigSection sec) self)
  = Raise (NoSectionError sec) /\
  (forall opt raw vars evaluate default,
      fst (ConfigSection_get (mkConfigSection sec) opt raw vars evaluate
                             default self)
      = Raise (NoSectionError sec)).
Proof.
  intros G N.
  assert (B : forall opt raw vars,
             ConfigParser_get self sec opt raw vars
             = Raise (NoSectionError sec)).
  { intros. unfold ConfigParser_get. rewrite G.
    destruct (String.eqb_spec sec DEFAULTSECT); [contradiction | reflexivity]. }
  assert (H : forall opt raw vars evaluate default,
             fst (get sec opt raw vars None evaluate default self)
             = Raise (NoSectionError sec)).
  { intros. unfold get, get_value. now rewrite B. }
  repeat apply conj.
  - exact H.
  - intros. apply H.
  - intros. now rewrite getlist_fst, H.
  - reflexivity.
  - unfold ConfigSection_options, options, lift, ConfigParser_options.
    simpl. now rewrite G.
  - intros. apply H.
Qed.

(** X11.  A default changes no answer: when [get] or [getlist] called
    without default return a value, they return the same value whatever
    default is given; and the list value is the raw value of [get], split,
    as the evaluated value is the raw value of [get], evaluated. *)
Theorem default_only_on_failure (self : CfgParser) (sec opt : string)
        (category : option string) :
  (forall raw vars evaluate v default,
      fst (get sec opt raw vars category evaluate _EMPTY self) = Ok v ->
      fst (get sec opt raw vars category evaluate default self) = Ok v) /\
  (forall evaluate v default,
      fst (getlist sec opt evaluate category _EMPTY self) = Ok v ->
      fst (getlist sec opt evaluate category default self) = Ok v) /\
  (forall val,
      fst (get sec opt false OrderedDict.empty category false _EMPTY self)
      = Ok (PStr val) ->
      (forall evaluate default,
          fst (getlist sec opt evaluate category default self)
          = Ok (split_list val evaluate)) /\
      (forall default,
          fst (geteval sec opt category default self) = Ok (_evaluate val))).
Proof.
  assert (V : forall full raw vars evaluate v default,
             fst (get_value full opt raw vars evaluate _EMPTY self) = Ok v ->
             fst (get_value full opt raw vars evaluate default self) = Ok v).
  { intros full raw vars evaluate v default. unfold get_value.
    destruct (ConfigParser_get self full opt raw vars) as [x | []];
      cbn [fst ne_EMPTY]; try discriminate. trivial. }
  assert (G : forall raw vars evaluate v default,
             fst (get sec opt raw vars category evaluate _EMPTY self) = Ok v ->
             fst (get sec opt raw vars category evaluate default self) = Ok v).
  { intros raw vars evaluate v default. destruct category as [category |].
    - rewrite !get_run.
      destruct (lookup _ _ _) as [full | []]; cbn [ne_EMPTY];
        try discriminate. apply V.
    - apply V. }
  split; [exact G | split].
  - intros evaluate v default. rewrite !getlist_fst.
    destruct (fst (get sec opt false OrderedDict.empty category false _EMPTY
                       self)) as [[] | []]; cbn [ne_EMPTY];
      try discriminate; trivial.
  - intros val H. split.
    + intros evaluate default. now rewrite getlist_fst, H.
    + intros default. unfold geteval. apply G.
      revert H. destruct category as [category |].
      * rewrite !get_run.
        destruct (lookup _ _ _) as [full | []]; cbn [ne_EMPTY];
          try discriminate.
        unfold get_value.
        destruct (ConfigParser_get self full opt false OrderedDict.empty)
          as [x | []]; cbn [fst ne_EMPTY]; try discriminate.
        intros E. injection E as ->. reflexivity.
      * unfold get, get_value.
        destruct (ConfigParser_get self sec opt false OrderedDict.empty)
          as [x | []]; cbn [fst ne_EMPTY]; try discriminate.
        intros E. injection E as ->. reflexivity.
Qed.

Lemma split_on_length p (s : string) :
  length (PyStr.split_on p s) = 1 + count_if p s.
Proof.
  induction s as [| c s IH]; simpl; [reflexivity |].
  destruct (p c); simpl; [now rewrite IH |].
  destruct (PyStr.split_on p s); simpl in *; lia.
Qed.

Lemma filter_length_le {A} (f : A -> bool) (l : list A) :
  length (filter f l) <= length l.
Proof.
  induction l as [| a l IH]; simpl; [lia |]. destruct (f a); simpl; lia.
Qed.

(** X12.  A list value has at most one item more than the raw value has
    commas and line feeds. *)
Theorem split_list_length (val : string) (evaluate : bool) :
  length (items_of (split_list val evaluate)) <= 1 + count_if SPLITTER val.
Proof.
  rewrite <- split_on_length. unfold split_list.
  destruct evaluate; simpl; rewrite !length_map; apply filter_length_le.
Qed.

Lemma join_commas_split (l : list string) :
  Forall (fun x => has_char SPLITTER x = false) l -> l <> [] ->
  PyStr.split_on SPLITTER (join_commas l) = l.
Proof.
  destruct l as [| x r]; [congruence |]. intros F _.
  inversion F as [| ? ? Hx Hr]; subst. unfold join_commas.
  rewrite split_on_interleave.
  - rewrite map_map. simpl. now rewrite map_id.
  - exact Hx.
  - apply Forall_map. eapply Forall_impl; [| exact Hr].
    intros a Ha. split; [reflexivity | exact Ha].
Qed.

(** X13.  Splitting is stable: the items of a list value, joined by commas
    and split again, are the same items. *)
Theorem split_list_join (val : string) :
  split_list (join_commas (strings_of (split_list val false))) false
  = split_list val false.
Proof.
  unfold split_list at 2 3. cbv iota.
  set (kept := map PyStr.strip
                   (filter (fun s => PyStr.truthy (PyStr.strip s))
                           (PyStr.split_on SPLITTER val))).
  assert (S : strings_of (PList (map PStr kept)) = kept).
  { unfold strings_of. simpl. induction kept as [| k kept IH]; simpl;
      [reflexivity | now rewrite IH]. }
  rewrite S.
  assert (K : Forall (fun x => has_char SPLITTER x = false
                               /\ PyStr.strip x = x
                               /\ PyStr.truthy x = true) kept).
  { apply Forall_forall. intros x Hx. unfold kept in Hx.
    apply in_map_iff in Hx as (y & <- & Hy).
    apply filter_In in Hy as [Hy Ht].
    pose proof (split_on_segments SPLITTER val) as F.
    rewrite Forall_forall in F.
    repeat split; [apply has_char_strip; now apply F | apply strip_idem
                   | exact Ht]. }
  clearbody kept. clear S.
  destruct kept as [| k kept]; [reflexivity |].
  unfold split_list. rewrite join_commas_split; [| | discriminate].
  - f_equal. f_equal.
    induction K as [| x l (_ & Hs & Ht) K IH]; [reflexivity |].
    simpl. rewrite Hs, Ht. simpl. now rewrite Hs, IH.
  - eapply Forall_impl; [| exact K]. intros a (H & _). exact H.
Qed.

(* ----------------------------------------------------------------------- *)
(** ** The spelling of the names in the configuration *)

Lemma lower_app (s t : string) :
  PyStr.lower (s ++ t) = (PyStr.lower s ++ PyStr.lower t)%string.
Proof. induction s as [| c s IH]; simpl; [reflexivity | now rewrite IH]. Qed.

Lemma all_space_lower (s : string) :
  all_space (PyStr.lower s) = all_space s.
Proof.
  induction s as [| c s IH]; simpl; [reflexivity |].
  now rewrite is_space_lower_char, IH.
Qed.

Lemma lstrip_all_space (w s : string) :
  all_space w = true -> PyStr.lstrip (w ++ s) = PyStr.lstrip s.
Proof.
  induction w as [| c w IH]; simpl; [reflexivity |].
  intros H. apply andb_true_iff in H as [Hc Hw]. rewrite Hc. now apply IH.
Qed.

Lemma lstrip_space_only (w : string) :
  all_space w = true -> PyStr.lstrip w = EmptyString.
Proof.
  induction w as [| c w IH]; simpl; [reflexivity |].
  intros H. apply andb_true_iff in H as [Hc Hw]. rewrite Hc. now apply IH.
Qed.

Lemma rstrip_all_space (w : string) :
  all_space w = true -> PyStr.rstrip w = EmptyString.
Proof.
  induction w as [| c w IH]; simpl; [reflexivity |].
  intros H. apply andb_true_iff in H as [Hc Hw].
  now rewrite (IH Hw), Hc.
Qed.

Lemma rstrip_app_space (s w : string) :
  all_space w = true -> PyStr.rstrip (s ++ w) = PyStr.rstrip s.
Proof.
  intros Hw. induction s as [| c s IH]; simpl.
  - now apply rstrip_all_space.
  - now rewrite IH.
Qed.

Lemma strip_app_space (s w : string) :
  all_space w = true -> PyStr.strip (s ++ w) = PyStr.strip s.
Proof.
  intros Hw. unfold PyStr.strip. induction s as [| c s IH]; simpl.
  - now rewrite lstrip_space_only.
  - destruct (PyStr.is_space c); [exact IH |].
    change (String c (s ++ w)) with (String c s ++ w)%string.
    now apply rstrip_app_space.
Qed.

Lemma strip_padded (w1 w2 s : string) :
  all_space w1 = true -> all_space w2 = true ->
  PyStr.strip (w1 ++ s ++ w2) = PyStr.strip s.
Proof.
  intros H1 H2. rewrite <- (strip_app_space s w2 H2).
  unfold PyStr.strip. now rewrite lstrip_all_space.
Qed.

(** two spellings of a name have the same category and bare name *)
Lemma respelled_category_name (a b : string) :
  respelled a b -> spec_category_name a = spec_category_name b.
Proof.
  intros (w1 & w2 & H1 & H2 & E).
  apply same_nocase_lower_eq in E.
  unfold spec_category_name. rewrite E, !lower_app.
  rewrite strip_padded by (now rewrite all_space_lower). reflexivity.
Qed.

Lemma respelled_listings (names names' : list string) :
  Forall2 respelled names names' ->
  spec_categories names = spec_categories names' /\
  forall cat, spec_sections names cat = spec_sections names' cat.
Proof.
  intros F.
  assert (Hc : forall a b, respelled a b -> cat_of a = cat_of b)
    by (intros a b R; unfold cat_of;
        now rewrite (respelled_category_name a b R)).
  assert (Hn : forall a b, respelled a b -> name_of a = name_of b)
    by (intros a b R; unfold name_of;
        now rewrite (respelled_category_name a b R)).
  assert (Hi : forall cat a b,
             respelled a b -> in_category cat a = in_category cat b)
    by (intros cat a b R; unfold in_category;
        now rewrite (respelled_category_name a b R)).
  unfold spec_categories, spec_sections. split.
  - f_equal. induction F as [| a b l l' R F IH]; simpl; [reflexivity |].
    now rewrite (Hc a b R), IH.
  - intros cat. f_equal.
    induction F as [| a b l l' R F IH]; simpl; [reflexivity |].
    rewrite (Hi cat a b R).
    destruct (in_category cat b); [| exact IH].
    simpl. now rewrite (Hn a b R), IH.
Qed.

(** X14.  The capitalisation and the white space around the section names
    of the configuration do not matter to the categories: two parsers
    whose section names are, one by one, spellings of the same name, list
    the same categories, list the same bare names under each category and
    answer [has_section] alike. *)
Theorem config_spelling_irrelevant (self self' : CfgParser) :
  _categories self = None -> _categories self' = None ->
  Forall2 respelled (ConfigParser_sections self) (ConfigParser_sections self')
  ->
  fst (categories self) = fst (categories self') /\
  (forall category,
      fst (sections (Some category) self)
      = fst (sections (Some category) self')) /\
  (forall sec category,
      fst (has_section sec (Some category) self)
      = fst (has_section sec (Some category) self')).
Proof.
  intros Fresh Fresh' F.
  destruct (respelled_listings _ _ F) as [Sc Ss].
  destruct (build_index_spec (ConfigParser_sections self)) as (Ka & Kb & _).
  destruct (build_index_spec (ConfigParser_sections self')) as (Ka' & Kb' & _).
  rewrite <- (built_fresh self Fresh) in Ka, Kb.
  rewrite <- (built_fresh self' Fresh') in Ka', Kb'.
  assert (K : OrderedDict.keys (built self) = OrderedDict.keys (built self'))
    by congruence.
  assert (U : forall cat,
             OrderedDict.keys (under (built self) cat)
             = OrderedDict.keys (under (built self') cat))
    by (intros; rewrite Kb, Kb'; apply Ss).
  assert (C : forall cat,
             OrderedDict.contains cat (built self)
             = OrderedDict.contains cat (built self'))
    by (intros; now rewrite !od_contains_keys, K).
  split; [| split].
  - rewrite !categories_run. cbn [fst]. now rewrite K.
  - intros category. rewrite !sections_run. cbn [fst].
    specialize (U (optionxform category)).
    specialize (C (optionxform category)).
    unfold getitem, under, OrderedDict.contains in *.
    destruct (OrderedDict.get (optionxform category) (built self)),
      (OrderedDict.get (optionxform category) (built self'));
      try discriminate; simpl; [now rewrite U | reflexivity].
  - intros sec category. rewrite !has_section_run. cbn [fst].
    rewrite C. f_equal. f_equal.
    now rewrite !od_contains_keys, U.
Qed.

(* ----------------------------------------------------------------------- *)
(** ** A cached index and removed sections *)

(** X15.  The index is not refreshed: when a lookup through a category
    resolves to a section that the parser no longer has, [has_section]
    still answers true for a name given in lower case, while [options] and
    [get] end in the [NoSectionError] of the inherited methods, whatever
    the default. *)
Theorem stale_entry_fails (self : CfgParser) (category sec full : string) :
  fst (resolve category sec self) = Ok full ->
  OrderedDict.get full (_sections self) = None -> full <> DEFAULTSECT ->
  fst (has_section (optionxform sec) (Some category) self) = Ok true /\
  fst (options sec (Some category) self) = Raise (NoSectionError full) /\
  (forall opt raw vars evaluate default,
      fst (get sec opt raw vars (Some category) evaluate default self)
      = Raise (NoSectionError full)) /\
  (forall opt evaluate default,
      fst (getlist sec opt evaluate (Some category) default self)
      = Raise (NoSectionError full)).
Proof.
  rewrite resolve_run. cbn [fst]. intros R G N.
  assert (H : forall opt raw vars evaluate default,
             fst (get sec opt raw vars (Some category) evaluate default self)
             = Raise (NoSectionError full)).
  { intros. rewrite get_run, R. unfold get_value, ConfigParser_get.
    rewrite G.
    destruct (String.eqb_spec full DEFAULTSECT); [contradiction |].
    reflexivity. }
  repeat apply conj.
  - rewrite has_section_run. cbn [fst]. f_equal.
    apply has_section_test. eauto.
  - rewrite options_run, R. unfold and_then, ConfigParser_options.
    now rewrite G.
  - exact H.
  - intros. now rewrite getlist_fst, H.
Qed.

End Parser.

(* ------------------------------------------------------------------------- *)
(** ** The model on the configuration of the tests *)

Example test_categories :
  fst (categories example_cfg) = Ok ["command"; "results"] /\
  fst (sections (Some "command") example_cfg) = Ok ["foo"; "bar"; "baz"] /\
  fst (get literal_eval_fragment no_interpolation "foo" "dir" false
           OrderedDict.empty (Some "command") false _EMPTY example_cfg)
  = Ok (PStr "bar") /\
  fst (has_section "bar" (Some "command") example_cfg) = Ok true /\
  fst (has_section "bye" (Some "results") example_cfg) = Ok false /\
  fst (has_section "bye" (Some "nonexistentcategory") example_cfg) = Ok false /\
  fst (options "foo" (Some "command") example_cfg) = Ok ["dir"] /\
  fst (has_option "baz" "dir" (Some "command") example_cfg) = Ok true /\
  fst (items no_interpolation "hello" (Some "results") example_cfg)
  = Ok [("type", "add")].
Proof. repeat split; reflexivity. Qed.

Example test_listvals :
  fst (getlist literal_eval_fragment no_interpolation "listvals" "val5" true
               None _EMPTY example_cfg)
  = Ok (PList [PInt 1; PInt 2; PInt 3; PNone; PBool false; PBool true]) /\
  fst (getlist literal_eval_fragment no_interpolation "listvals" "val4" false
               None _EMPTY example_cfg)
  = Ok (PList [PStr "now"; PStr "lets"; PStr "combine";
               PStr "the"; PStr "two"; PStr "together"]).
Proof. split; reflexivity. Qed.

Example test_bools :
  map (fun o => fst (geteval literal_eval_fragment no_interpolation
                             "evalvals" o None _EMPTY example_cfg))
      ["val5"; "val6"; "val7"; "val8"; "val9"; "val14"]
  = [Ok (PBool false); Ok (PBool true); Ok (PBool true); Ok (PBool false);
     Ok (PBool true); Ok PNone].
Proof. reflexivity. Qed.

(* ------------------------------------------------------------------------- *)
(** ** Defaults *)

(** C2.  With a category whose resolution fails and no default, [get] does
    not end in [NoSectionError]: the class is raised bare, its constructor
    wants the section, and the call ends in [TypeError].  With a default,
    [None] included, the default is returned; an option absent from an
    existing section gives the default or [NoOptionError]; a section
    unknown to the parser, asked for without category, is the
    [NoSectionError] of the inherited [get]. *)
Theorem get_unknown_section_without_default :
  raise_class NoSectionError_class = TypeError /\
  fst (get literal_eval_fragment no_interpolation "nosuch" "dir" false
           OrderedDict.empty (Some "command") false _EMPTY example_cfg)
  = Raise TypeError /\
  fst (get literal_eval_fragment no_interpolation "bar" "dir" false
           OrderedDict.empty (Some "nosuch") false _EMPTY example_cfg)
  = Raise TypeError /\
  fst (get literal_eval_fragment no_interpolation "nosuch" "dir" false
           OrderedDict.empty (Some "command") false PNone example_cfg)
  = Ok PNone /\
  fst (get literal_eval_fragment no_interpolation "listvals" "nosuch" false
           OrderedDict.empty None false PNone example_cfg)
  = Ok PNone /\
  fst (get literal_eval_fragment no_interpolation "listvals" "nosuch" false
           OrderedDict.empty None false _EMPTY example_cfg)
  = Raise (NoOptionError "nosuch" "listvals") /\
  fst (get literal_eval_fragment no_interpolation "nosuch" "dir" false
           OrderedDict.empty None false _EMPTY example_cfg)
  = Raise (NoSectionError "nosuch").
Proof. repeat split; reflexivity. Qed.

(** C3.  With a category whose resolution fails, [getlist] does not return
    the default it was given, where [get] does: it calls [get] without the
    default and handles [NoOptionError] only.  An option absent from an
    existing section gives the default. *)
Theorem getlist_unknown_section_with_default :
  fst (getlist literal_eval_fragment no_interpolation "nosuch" "dir" false
               (Some "command") (PList []) example_cfg)
  = Raise TypeError /\
  fst (get literal_eval_fragment no_interpolation "nosuch" "dir" false
           OrderedDict.empty (Some "command") false (PList []) example_cfg)
  = Ok (PList []) /\
  fst (getlist literal_eval_fragment no_interpolation "listvals" "nosuch" false
               None (PList []) example_cfg)
  = Ok (PList []).
Proof. repeat split; reflexivity. Qed.

(* ------------------------------------------------------------------------- *)
(** ** Spelling of the arguments *)

(** C4 fails as stated: the arguments are not trimmed.  The two spellings
    are equal once case-folded and trimmed, and resolve differently. *)
Lemma resolve_keeps_whitespace :
  PyStr.strip (PyStr.lower "Command") = PyStr.strip (PyStr.lower "command") /\
  PyStr.strip (PyStr.lower " bar ") = PyStr.strip (PyStr.lower "bar") /\
  fst (resolve "Command" " bar " example_cfg) = Raise (KeyError " bar ") /\
  fst (resolve "command" "bar" example_cfg) = Ok " Command:    bar " /\
  fst (resolve "Command" " bar " example_cfg)
  <> fst (resolve "command" "bar" example_cfg).
Proof. repeat split; try reflexivity. vm_compute. discriminate. Qed.

(** C7 fails as stated: an unknown section under a known category, and an
    unknown category, end in the [KeyError] of the index. *)
Lemma options_unknown_section_KeyError :
  fst (options "nosuch" (Some "command") example_cfg)
  = Raise (KeyError "nosuch") /\
  fst (sections (Some "nosuch") example_cfg) = Raise (KeyError "nosuch") /\
  (forall s, fst (options "nosuch" (Some "command") example_cfg)
             <> Raise (NoSectionError s)) /\
  (forall s, fst (sections (Some "nosuch") example_cfg)
             <> Raise (NoSectionError s)).
Proof. repeat split; try reflexivity; intros s; vm_compute; discriminate. Qed.

(** C9.  [has_section] with a category never raises: its answer is whether
    the case-folded category is in the index and the section, as spelled by
    the caller, is under it; so it is false for an unknown category and for
    an unknown section.  The section is not case-folded: for the spelling
    "Bar" of the indexed "bar", [has_section] answers false while [options],
    [items] and [get] succeed. *)
Theorem has_section_keeps_case :
  (forall self sec category,
      fst (has_section sec (Some category) self) =
      Ok (OrderedDict.contains (optionxform category) (built self)
          && OrderedDict.contains sec (under (built self)
                                            (optionxform category)))) /\
  same_nocase "Bar" "bar" = true /\
  fst (has_section "bar" (Some "command") example_cfg) = Ok true /\
  fst (has_section "Bar" (Some "command") example_cfg) = Ok false /\
  fst (options "Bar" (Some "command") example_cfg) = Ok ["dir"] /\
  fst (items no_interpolation "Bar" (Some "command") example_cfg)
  = Ok [("dir", "baz")] /\
  fst (get literal_eval_fragment no_interpolation "Bar" "dir" false
           OrderedDict.empty (Some "command") false _EMPTY example_cfg)
  = Ok (PStr "baz") /\
  fst (has_section "bye" (Some "results") example_cfg) = Ok false /\
  fst (has_section "bye" (Some "nonexistentcategory") example_cfg) = Ok false.
Proof.
  split; [| repeat split; reflexivity].
  intros self sec category. now rewrite has_section_run.
Qed.

(* ------------------------------------------------------------------------- *)
(** ** The statements at concrete inputs *)

Lemma evaluate_three_way_witness :
  evaluates literal_eval_fragment "Yes" (PBool true) /\
  PBool true = _evaluate literal_eval_fragment "Yes".
Proof.
  split.
  - exact (proj1 (evaluate_three_way literal_eval_fragment "Yes")).
  - apply (proj2 (evaluate_three_way literal_eval_fragment "Yes")).
    apply evaluates_true with "yes"; [reflexivity | simpl; auto | reflexivity].
Defined.

Lemma split_list_segments_witness :
  split_list literal_eval_fragment " a ,7,  ,a" true
  = PList [PStr "a"; PInt 7; PStr "a"].
Proof.
  apply (proj1 (proj2 (split_list_segments literal_eval_fragment))
           " a " [(","%char, "7"); (","%char, "  "); (","%char, "a")] true).
  - reflexivity.
  - repeat constructor.
Defined.

Lemma index_holds_one_colon_sections_witness :
  _categories example_cfg = None /\
  exists idx,
    _parse_categories example_cfg = (Ok tt, set_categories example_cfg idx) /\
    OrderedDict.keys idx = ["command"; "results"] /\
    OrderedDict.keys (under idx "command") = ["foo"; "bar"; "baz"] /\
    fst (has_section "hello" (Some "results") example_cfg) = Ok true.
Proof.
  split; [reflexivity |].
  destruct (index_holds_one_colon_sections example_cfg eq_refl)
    as (idx & H1 & H2 & H3 & _ & H5 & _).
  exists idx.
  split; [exact H1 | split; [exact H2 | split; [exact (H3 "command") |]]].
  apply (H5 "results: hello" "results" "hello"); [| reflexivity].
  simpl. tauto.
Defined.

Lemma last_section_wins_witness :
  fst (resolve "command" "foo" clash_cfg) = Ok "Command:FOO" /\
  fst (sections (Some "command") clash_cfg) = Ok ["foo"; "zed"] /\
  (forall category section,
      fst (resolve category section clash_cfg) <> Ok "command: foo").
Proof.
  assert (H2 : forall x, In x ["a:b:c"] ->
                         spec_category_name x <> Some ("command", "foo")).
  { intros x [<- | []]. vm_compute. discriminate. }
  assert (H3 : In "command: foo" ["command: foo"; "command: zed"])
    by (left; reflexivity).
  assert (H4 : "command: foo" <> "Command:FOO") by discriminate.
  destruct (last_section_wins literal_eval_fragment no_interpolation clash_cfg
              ["command: foo"; "command: zed"] ["a:b:c"]
              "command: foo" "Command:FOO" "command" "foo"
              eq_refl eq_refl eq_refl H2 H3 eq_refl H4)
    as (_ & R & S & U).
  split; [exact R | split; [exact S | exact U]].
Defined.

Lemma lookup_ignores_case_witness :
  same_nocase "Command" "command" = true /\
  same_nocase "BAR" "bar" = true /\
  resolve "Command" "BAR" example_cfg = resolve "command" "bar" example_cfg.
Proof.
  split; [reflexivity | split; [reflexivity |]].
  exact (proj1 (lookup_ignores_case literal_eval_fragment no_interpolation
                  example_cfg "Command" "command" "BAR" "bar"
                  eq_refl eq_refl)).
Defined.

Lemma category_miss_is_KeyError_witness :
  fst (sections (Some "NoSuch") example_cfg) = Raise (KeyError "nosuch") /\
  fst (options "Zed" (Some "Command") example_cfg) = Raise (KeyError "zed").
Proof.
  split.
  - exact (proj1 (proj1 (category_miss_is_KeyError literal_eval_fragment
                           no_interpolation example_cfg "NoSuch" "x")
                        eq_refl)).
  - exact (proj1 (proj1 (proj2 (category_miss_is_KeyError literal_eval_fragment
                                  no_interpolation example_cfg "Command" "Zed")
                               (under (built example_cfg) "command") eq_refl)
                        eq_refl)).
Defined.

Lemma index_built_once_witness :
  _categories
    (after_calls literal_eval_fragment no_interpolation
       [Inherited_update OrderedDict.empty OrderedDict.empty;
        Call_sections (Some "x"); Call_categories]
       (snd (categories example_cfg)))
  = Some (built example_cfg).
Proof.
  apply (proj1 (proj2 (proj2 (proj2
           (index_built_once literal_eval_fragment no_interpolation))))).
  reflexivity.
Defined.

(* ------------------------------------------------------------------------- *)
(** ** The further statements at concrete inputs *)

Lemma accessors_read_only_witness :
  fst (options "bar" (Some "command")
         (after_calls literal_eval_fragment no_interpolation
            [Call_categories;
             Call_get "foo" "dir" false OrderedDict.empty (Some "command")
                      false _EMPTY;
             Call_sections None]
            example_cfg))
  = Ok ["dir"].
Proof.
  destruct (accessors_read_only literal_eval_fragment no_interpolation
              [Call_categories;
               Call_get "foo" "dir" false OrderedDict.empty (Some "command")
                        false _EMPTY;
               Call_sections None]
              example_cfg eq_refl)
    as (_ & _ & _ & _ & _ & H & _).
  rewrite H. reflexivity.
Defined.

Lemma no_category_no_index_witness :
  after_call literal_eval_fragment no_interpolation
             (Call_getlist "listvals" "val2" true None _EMPTY) example_cfg
  = example_cfg.
Proof.
  exact (no_category_no_index literal_eval_fragment no_interpolation
           (Call_getlist "listvals" "val2" true None _EMPTY) example_cfg
           eq_refl).
Defined.

Lemma has_section_iff_section_witness :
  exists cs, fst (section "bar" (Some "command") example_cfg) = Ok cs.
Proof.
  apply (proj1 (has_section_iff_section example_cfg "bar" "command")).
  reflexivity.
Defined.

Lemma listing_matches_has_section_witness :
  fst (has_section "baz" (Some "Command") example_cfg) = Ok true.
Proof.
  apply (proj1 (listing_matches_has_section example_cfg "Command")
           ["foo"; "bar"; "baz"] eq_refl "baz").
  simpl. tauto.
Defined.

Lemma listings_are_clean_witness :
  NoDup ["command"; "results"] /\ NoDup ["foo"; "bar"; "baz"].
Proof.
  destruct (listings_are_clean example_cfg eq_refl) as [H1 H2].
  split.
  - exact (proj1 (H1 ["command"; "results"] eq_refl)).
  - exact (proj1 (H2 "command" ["foo"; "bar"; "baz"] eq_refl)).
Defined.

Lemma resolved_section_exists_witness :
  ConfigParser_has_section example_cfg "CoMmaNd:baz" = true /\
  spec_category_name "CoMmaNd:baz" = Some ("command", "baz").
Proof.
  destruct (resolved_section_exists literal_eval_fragment no_interpolation
              example_cfg "Command" "BAZ" "CoMmaNd:baz" eq_refl eq_refl)
    as (_ & H1 & H2 & _).
  split; [exact H1 | exact H2].
Defined.

Lemma listed_names_resolve_witness :
  fst (has_section "baz" (Some "command") example_cfg) = Ok true.
Proof.
  assert (H : In "baz" ["foo"; "bar"; "baz"]) by (simpl; tauto).
  exact (proj1 (listed_names_resolve example_cfg "command" "baz"
                  ["foo"; "bar"; "baz"] eq_refl eq_refl H)).
Defined.

Lemma capital_letter_not_found_witness :
  fst (has_section "Bar" (Some "command") example_cfg) = Ok false.
Proof.
  assert (N : optionxform "Bar" <> "Bar") by discriminate.
  exact (proj1 (capital_letter_not_found example_cfg "Bar" "command"
                  eq_refl N)).
Defined.

Lemma bound_view_agrees_witness :
  fst (ConfigSection_options (mkConfigSection " Command:    bar ")
         (snd (section "bar" (Some "command") example_cfg)))
  = fst (options "bar" (Some "command") example_cfg).
Proof.
  exact (proj1 (bound_view_agrees literal_eval_fragment no_interpolation
                  example_cfg
                  (snd (section "bar" (Some "command") example_cfg))
                  "bar" "command" (mkConfigSection " Command:    bar ")
                  eq_refl eq_refl)).
Defined.

Lemma missing_section_ignores_default_witness :
  fst (getlist literal_eval_fragment no_interpolation "nosuch" "dir" false
               None (PList []) example_cfg)
  = Raise (NoSectionError "nosuch").
Proof.
  assert (N : "nosuch" <> DEFAULTSECT) by discriminate.
  destruct (missing_section_ignores_default literal_eval_fragment
              no_interpolation example_cfg "nosuch" eq_refl N)
    as (_ & _ & H & _).
  apply H.
Defined.

Lemma default_only_on_failure_witness :
  fst (get literal_eval_fragment no_interpolation "foo" "dir" false
           OrderedDict.empty (Some "command") false PNone example_cfg)
  = Ok (PStr "bar").
Proof.
  apply (proj1 (default_only_on_failure literal_eval_fragment
                  no_interpolation example_cfg "foo" "dir"
                  (Some "command"))).
  reflexivity.
Defined.

Lemma config_spelling_irrelevant_witness :
  fst (categories respelled_cfg) = fst (categories example_cfg) /\
  fst (sections (Some "command") respelled_cfg)
  = fst (sections (Some "command") example_cfg).
Proof.
  assert (F : Forall2 respelled (ConfigParser_sections respelled_cfg)
                      (ConfigParser_sections example_cfg)).
  { repeat constructor.
    - exists "", "". repeat split; reflexivity.
    - exists " ", "". repeat split; reflexivity.
    - exists "", "  ". repeat split; reflexivity.
    - exists "  ", "". repeat split; reflexivity.
    - exists "", "". repeat split; reflexivity.
    - exists " ", " ". repeat split; reflexivity. }
  destruct (config_spelling_irrelevant respelled_cfg example_cfg
              eq_refl eq_refl F) as (H1 & H2 & _).
  split; [exact H1 | exact (H2 "command")].
Defined.

Lemma stale_entry_fails_witness :
  fst (options "bar" (Some "command")
         (after_call literal_eval_fragment no_interpolation
            (Inherited_update OrderedDict.empty OrderedDict.empty)
            (snd (categories example_cfg))))
  = Raise (NoSectionError " Command:    bar ").
Proof.
  assert (N : " Command:    bar " <> DEFAULTSECT) by discriminate.
  destruct (stale_entry_fails literal_eval_fragment no_interpolation
              (after_call literal_eval_fragment no_interpolation
                 (Inherited_update OrderedDict.empty OrderedDict.empty)
                 (snd (categories example_cfg)))
              "command" "bar" " Command:    bar " eq_refl eq_refl N)
    as (_ & H & _).
  exact H.
Defined.
